(** * IWT image generation scripts: a shallow embedding and its properties

    The repository holds three standalone Python scripts
    ([generate-images.py], [generate-process-images.py] and
    [generate-hero.py]).  Each of them posts a prompt to a remote
    generative-image service, looks for an inline base64 image in the JSON
    answer and writes the decoded bytes under an [images] directory.

    Part I is the embedding:
    - [Base64]: the base64 alphabet, the encoder, and the decoding loop of
      [binascii.a2b_base64] in its default (non-strict) mode;
    - [Py]: parsed JSON values with the Python operations the scripts apply
      to them ([in], [.get], subscripting, iteration), and exceptions;
    - [Sys]: the outside world (environment variable, remote service,
      file system, console) and a state-and-exception monad over it;
    - [Common]: the code the two batch scripts share word for word
      (the response handling of [generate_image], and [save_image]);
    - [GenerateImages], [GenerateProcessImages], [GenerateHero]: the three
      scripts;
    - [Schema]: the shape of a service answer, as a reference to compare
      the scanning loops with;
    - [Observe]: what is read off a run (pauses between requests, saved
      files, the context a step hands on);
    - [Fixtures]: concrete answers and environments to run the scripts on;
    - [Probe]: more of the same;
    - [Hazard]: the two batch scripts once more, on a console that can
      refuse a line and a disk that can fail in the middle of a write.

    Part II holds the lemmas and the properties of the scripts. *)

From Stdlib Require Import NArith ZArith Ascii String List Lia DecimalString.
From Stdlib Require Import Strings.Byte.
From stdpp Require Import gmap strings list.

Open Scope string_scope.

(** * Part I: the embedding *)

(** ** Base64 *)

Module Base64.

(** [table_b2a_base64] of [binascii]: the alphabet of RFC 4648. *)
Definition table_b2a_base64 : string :=
  "ABCDEFGHIJKLMNOPQRSTUVWXYZabcdefghijklmnopqrstuvwxyz0123456789+/".

Definition BASE64_PAD : ascii := "="%char.

(** The character of a 6-bit value. *)
Definition b2a (n : N) : ascii :=
  match String.get (N.to_nat n) table_b2a_base64 with
  | Some c => c
  | None => BASE64_PAD
  end.

(** [table_a2b_base64] of [binascii], indexed by the character code: the
    6-bit value of an alphabet character, and 255 (the C table's -1 stored
    in an [unsigned char]) for every other character. *)
Definition table_a2b_base64 (c : N) : N :=
  if (65 <=? c)%N && (c <=? 90)%N then (c - 65)%N
  else if (97 <=? c)%N && (c <=? 122)%N then (c - 71)%N
  else if (48 <=? c)%N && (c <=? 57)%N then (c + 4)%N
  else if (c =? 43)%N then 62%N
  else if (c =? 47)%N then 63%N
  else 255%N.

(** Storing an [int] into an [unsigned char]. *)
Definition uchar (n : N) : byte :=
  match Byte.of_N (n mod 256) with
  | Some b => b
  | None => x00
  end.

(** The four 6-bit values of a group of three bytes [x], [y], [z]. *)
Definition sextet0 (x : N) : N := N.shiftr x 2.
Definition sextet1 (x y : N) : N :=
  N.lor (N.shiftl (N.land x 3) 4) (N.shiftr y 4).
Definition sextet2 (y z : N) : N :=
  N.lor (N.shiftl (N.land y 15) 2) (N.shiftr z 6).
Definition sextet3 (z : N) : N := N.land z 63.

(** [base64.b64encode]: three bytes become four characters, and a final
    group of one or two bytes is completed with zero bits and padded
    with [=]. *)
Fixpoint b64encode (s : list byte) : string :=
  match s with
  | [] => EmptyString
  | [a] =>
      let x := Byte.to_N a in
      String (b2a (sextet0 x))
        (String (b2a (sextet1 x 0))
           (String BASE64_PAD (String BASE64_PAD EmptyString)))
  | [a; b] =>
      let x := Byte.to_N a in
      let y := Byte.to_N b in
      String (b2a (sextet0 x))
        (String (b2a (sextet1 x y))
           (String (b2a (sextet2 y 0))
              (String BASE64_PAD EmptyString)))
  | a :: b :: c :: rest =>
      let x := Byte.to_N a in
      let y := Byte.to_N b in
      let z := Byte.to_N c in
      String (b2a (sextet0 x))
        (String (b2a (sextet1 x y))
           (String (b2a (sextet2 y z))
              (String (b2a (sextet3 z)) (b64encode rest))))
  end.

(** The two ways [binascii.a2b_base64] raises [binascii.Error]. *)
Inductive binascii_error : Type :=
| InvalidLength      (* one data character more than a multiple of four *)
| IncorrectPadding.

Definition emit (b : byte) (r : binascii_error + list byte)
  : binascii_error + list byte :=
  match r with
  | inr l => inr (b :: l)
  | inl e => inl e
  end.

(** The decoding loop of [binascii.a2b_base64] with [strict_mode] off.
    [quad_pos], [leftchar] and [pads] are the C locals; a byte stored
    through [*bin_data++] is consed in front of what the rest of the loop
    stores.  Characters outside the alphabet are skipped; a pad character
    that completes the current quad ends the loop ([goto done]). *)
Fixpoint a2b_loop (ascii_data : string) (quad_pos : nat) (leftchar : N)
    (pads : nat) : binascii_error + list byte :=
  match ascii_data with
  | EmptyString =>
      match quad_pos with
      | 0 => inr []
      | 1 => inl InvalidLength
      | _ => inl IncorrectPadding
      end
  | String this_ch rest =>
      if Ascii.eqb this_ch BASE64_PAD then
        if (2 <=? quad_pos)%nat then
          if (4 <=? quad_pos + S pads)%nat then inr []
          else a2b_loop rest quad_pos leftchar (S pads)
        else a2b_loop rest quad_pos leftchar pads
      else
        let v := table_a2b_base64 (N_of_ascii this_ch) in
        if (64 <=? v)%N then a2b_loop rest quad_pos leftchar pads
        else
          match quad_pos with
          | 0 => a2b_loop rest 1 v 0
          | 1 =>
              emit (uchar (N.lor (N.shiftl leftchar 2) (N.shiftr v 4)))
                (a2b_loop rest 2 (N.land v 15) 0)
          | 2 =>
              emit (uchar (N.lor (N.shiftl leftchar 4) (N.shiftr v 2)))
                (a2b_loop rest 3 (N.land v 3) 0)
          | _ =>
              emit (uchar (N.lor (N.shiftl leftchar 6) v))
                (a2b_loop rest 0 0 0)
          end
  end.

Definition a2b_base64 (ascii_data : string) : binascii_error + list byte :=
  a2b_loop ascii_data 0 0 0.

(** Checking a boolean property on every number below [k]. *)
Definition below (k : nat) (P : N -> bool) : bool :=
  forallb P (map N.of_nat (seq 0 k)).

(** What the decoding loop needs of the sextets of two neighbouring
    bytes: they index the alphabet, and the shifts and masks of the loop
    put the bytes back together. *)
Definition group_check (x y : N) : bool :=
  (sextet0 x <? 64)%N && (sextet1 x y <? 64)%N
  && (sextet2 x y <? 64)%N && (sextet3 x <? 64)%N
  && (N.lor (N.shiftl (sextet0 x) 2) (N.shiftr (sextet1 x y) 4) mod 256 =? x)%N
  && (N.land (sextet1 x y) 15 =? N.shiftr y 4)%N
  && (N.shiftr (sextet2 x y) 2 =? N.land x 15)%N
  && (N.lor (N.shiftl (N.shiftr x 4) 4) (N.land x 15) mod 256 =? x)%N
  && (N.lor (N.shiftl (N.land (sextet2 x y) 3) 6) (sextet3 y) mod 256 =? y)%N.

End Base64.

(** ** Python values and exceptions *)

Module Py.

#[local] Set Warnings "-register-all".

(** What [json.loads] returns.  A dict is kept as the list of its items in
    insertion order; a key is looked up from the front. *)
Inductive json : Type :=
| JNull
| JBool (b : bool)
| JInt (n : Z)
| JFloat (lexeme : string)
| JStr (s : string)
| JArr (items : list json)
| JObj (fields : list (string * json)).

(** The exceptions the scripts can meet.  All of them are subclasses of
    [Exception], so an [except Exception] clause catches every one;
    [HTTPError] is the only one caught by class. *)
Inductive exn : Type :=
| Exception (arg : json)                       (* [raise Exception(arg)] *)
| TypeError
| AttributeError
| KeyError (key : string)
| ValueError      (* also [JSONDecodeError] and the two [UnicodeError]s *)
| BinasciiError (e : Base64.binascii_error)
| HTTPError (code : Z) (body : option string)
| URLError (reason : string)                   (* no answer, or a timeout *)
| OSError (filename : string).

(** The outcome of evaluating an expression: [inl e] when it raises. *)
Definition result (A : Type) : Type := exn + A.

Definition bind {A B : Type} (r : result A) (k : A -> result B) : result B :=
  match r with
  | inl e => inl e
  | inr a => k a
  end.

Fixpoint lookup (key : string) (fields : list (string * json)) : option json :=
  match fields with
  | [] => None
  | (k, v) :: rest => if String.eqb k key then Some v else lookup key rest
  end.

(** [needle in hay] on two strings. *)
Fixpoint str_contains (needle hay : string) : bool :=
  String.prefix needle hay
  || match hay with
     | EmptyString => false
     | String _ rest => str_contains needle rest
     end.

Definition is_str (key : string) (v : json) : bool :=
  match v with
  | JStr s => String.eqb s key
  | _ => false
  end.

(** [key in v]: a key of a dict, an element of a list, a substring of a
    string; the other values are not containers. *)
Definition contains (key : string) (v : json) : result bool :=
  match v with
  | JObj fields => inr (bool_decide (is_Some (lookup key fields)))
  | JArr items => inr (existsb (is_str key) items)
  | JStr s => inr (str_contains key s)
  | _ => inl TypeError
  end.

(** [v[key]] with a string key. *)
Definition subscript (v : json) (key : string) : result json :=
  match v with
  | JObj fields =>
      match lookup key fields with
      | Some x => inr x
      | None => inl (KeyError key)
      end
  | _ => inl TypeError
  end.

(** [v.get(key, default)]: only a dict has the method. *)
Definition get (v : json) (key : string) (default : json) : result json :=
  match v with
  | JObj fields =>
      match lookup key fields with
      | Some x => inr x
      | None => inr default
      end
  | _ => inl AttributeError
  end.

Fixpoint chars (s : string) : list json :=
  match s with
  | EmptyString => []
  | String c rest => JStr (String c EmptyString) :: chars rest
  end.

(** The values a [for] loop draws from [v]. *)
Definition iter (v : json) : result (list json) :=
  match v with
  | JArr items => inr items
  | JObj fields => inr (map (fun kv => JStr (fst kv)) fields)
  | JStr s => inr (chars s)
  | _ => inl TypeError
  end.

Fixpoint ascii_only (s : string) : bool :=
  match s with
  | EmptyString => true
  | String c rest => (N_of_ascii c <? 128)%N && ascii_only rest
  end.

(** [base64.b64decode(v)]: a string must be ASCII ([ValueError] otherwise)
    and is handed to [binascii.a2b_base64]; a value of another JSON type is
    not bytes-like. *)
Definition b64decode (v : json) : result (list byte) :=
  match v with
  | JStr s =>
      if ascii_only s then
        match Base64.a2b_base64 s with
        | inr bytes => inr bytes
        | inl e => inl (BinasciiError e)
        end
      else inl ValueError
  | _ => inl TypeError
  end.

(** [str(n)] of an integer. *)
Definition str_of_int (n : Z) : string := NilZero.string_of_int (Z.to_int n).

End Py.

Notation "x <- e ;; k" := (Py.bind e (fun x => k))
  (at level 100, e at next level, right associativity).

(** ** The outside world *)

Module Sys.
Import Py.

(** A POST request: the URL, the JSON body before [json.dumps], and the
    timeout given to [urlopen]. *)
Record request : Type := {
  url : string;
  headers : list (string * string);
  body : json;
  timeout : Z
}.

(** What can come back from the service. *)
Inductive http_outcome : Type :=
| Responded (result : json)  (* success status, body parsed by [json.loads] *)
| Garbled                    (* success status, body not UTF-8 or not JSON *)
| Refused (code : Z) (error_body : option string)
                             (* [HTTPError]; [None]: body is not UTF-8 *)
| Unreachable (reason : string).   (* no answer within the timeout *)

(** What a run depends on: the environment variable, the answer of the
    service to its k-th request, and the paths that cannot be written. *)
Record environ : Type := {
  GEMINI_API_KEY : option string;
  remote : nat -> request -> http_outcome;
  write_fails : string -> bool
}.

(** A line on the console. *)
Inductive line : Type :=
| Text (s : string)
| GeneratingCount (n : nat)
| Generating (name : string)
| GeneratingStep (name : string) (step : nat)
| Saved (filename : string)
| Failed (e : exn)
| Successful (n : nat)
| FailedCount (n : nat)
| SavedTo (dir : string).

Inductive event : Type :=
| Print (l : line)
| Mkdir (path : string)
| Urlopen (r : request)
| Sleep (secs : Z)
| WriteBytes (path : string) (bytes : list byte).

(** The state of a run: what happened so far, in order, and the files. *)
Record world : Type := {
  trace : list event;
  files : gmap string (list byte)
}.

(** A statement: it changes the world and returns or raises. *)
Definition M (A : Type) : Type := world -> result A * world.

Definition ret {A : Type} (a : A) : M A := fun w => (inr a, w).

Definition raise {A : Type} (e : exn) : M A := fun w => (inl e, w).

Definition mbind {A B : Type} (m : M A) (k : A -> M B) : M B :=
  fun w =>
    match m w with
    | (inr a, w') => k a w'
    | (inl e, w') => (inl e, w')
    end.

(** Evaluating an expression that has no effect. *)
Definition lift {A : Type} (r : result A) : M A := fun w => (r, w).

(** [try: body / except ... as e: handler e]. *)
Definition try_except {A : Type} (body : M A) (handler : exn -> M A) : M A :=
  fun w =>
    match body w with
    | (inr a, w') => (inr a, w')
    | (inl e, w') => handler e w'
    end.

(** The world after some more events that leave the files alone. *)
Definition after (w : world) (es : list event) : world :=
  {| trace := trace w ++ es; files := files w |}.

Definition log (e : event) : M unit :=
  fun w => (inr tt, after w [e]).

(** [print] on a console that shows every line; the [print] that can
    raise is [Hazard.print]. *)
Definition print (l : line) : M unit := log (Print l).

Definition sleep (secs : Z) : M unit := log (Sleep secs).

(** [images_dir.mkdir(exist_ok=True)]; the path is taken not to be that
    of a regular file, so the call does not raise.  The call that can
    raise is [Hazard.mkdir]. *)
Definition mkdir (path : string) : M unit := log (Mkdir path).

(** The requests of a trace, in order. *)
Fixpoint requests (t : list event) : list request :=
  match t with
  | [] => []
  | Urlopen r :: t' => r :: requests t'
  | _ :: t' => requests t'
  end.

(** The files written in a trace, in order. *)
Fixpoint writes (t : list event) : list (string * list byte) :=
  match t with
  | [] => []
  | WriteBytes p b :: t' => (p, b) :: writes t'
  | _ :: t' => writes t'
  end.

(** [with urlopen(req, timeout=...) as response:
       result = json.loads(response.read().decode('utf-8'))]:
    the request goes out, and the answer is a parsed body or an exception. *)
Definition urlopen (env : environ) (req : request) : M json :=
  fun w =>
    let k := length (requests (trace w)) in
    let w' := after w [Urlopen req] in
    match remote env k req with
    | Responded result => (inr result, w')
    | Garbled => (inl ValueError, w')
    | Refused code error_body => (inl (HTTPError code error_body), w')
    | Unreachable reason => (inl (URLError reason), w')
    end.

(** [filename.write_bytes(image_bytes)]: the file is created or replaced,
    unless the system refuses the path; a refused write raises [OSError]
    and is taken to leave the files as they were.  A write that fails
    after the file was opened, or on one call and not on another, is in
    [Hazard.write_bytes]. *)
Definition write_bytes (env : environ) (filename : string)
    (image_bytes : list byte) : M unit :=
  fun w =>
    if write_fails env filename then (inl (OSError filename), w)
    else (inr tt, {| trace := trace w ++ [WriteBytes filename image_bytes];
                     files := <[filename := image_bytes]> (files w) |}).

(** [Path(__file__).parent / 'images'], relative to the script. *)
Definition images_dir : string := "images".

(** [dir / name] for a plain file name (a stem and an extension, without
    a separator in it). *)
Definition joinpath (dir name : string) : string := dir ++ "/" ++ name.

Definition nl : string := String (ascii_of_nat 10) EmptyString.

Definition dquote : string := String (ascii_of_nat 34) EmptyString.

Definition MODEL : string := "gemini-2.0-flash-exp".

(** The f-string of the URL; [None] is formatted as [None]. *)
Definition api_url (env : environ) : string :=
  "https://generativelanguage.googleapis.com/v1beta/models/" ++ MODEL
  ++ ":generateContent?key="
  ++ match GEMINI_API_KEY env with
     | Some key => key
     | None => "None"
     end.

(** The request the three scripts build around a list of parts. *)
Definition build_request (env : environ) (parts : list json) (timeout : Z)
  : request :=
  {| url := api_url env;
     headers := [("Content-Type", "application/json")];
     body := JObj [("contents", JArr [JObj [("parts", JArr parts)]]);
                   ("generationConfig",
                    JObj [("responseModalities",
                           JArr [JStr "TEXT"; JStr "IMAGE"])])];
     timeout := timeout |}.

(** [not API_KEY]: the variable is unset, or set to the empty string. *)
Definition key_missing (env : environ) : bool :=
  match GEMINI_API_KEY env with
  | None => true
  | Some key => String.eqb key ""
  end.

End Sys.

Notation "x <~ e ;; k" := (Sys.mbind e (fun x => k))
  (at level 100, e at next level, right associativity).

(** ** What the two batch scripts share *)

Module Common.
Import Py Sys.

(** The dict [generate_image] returns. *)
Record image : Type := {
  mimeType : json;
  data : json
}.

Record PromptSpec : Type := {
  name : string;
  prompt : string
}.

(** [for part in parts]: the first part with an [inlineData] key ends the
    function; [None] when the loop runs to its end. *)
Fixpoint scan_parts (parts : list json) : result (option image) :=
  match parts with
  | [] => inr None
  | part :: rest =>
      found <- contains "inlineData" part ;;
      if found : bool then
        inline <- subscript part "inlineData" ;;
        m <- subscript inline "mimeType" ;;
        inline' <- subscript part "inlineData" ;;
        d <- subscript inline' "data" ;;
        inr (Some {| mimeType := m; data := d |})
      else scan_parts rest
  end.

(** [for candidate in candidates]. *)
Fixpoint scan_candidates (candidates : list json) : result (option image) :=
  match candidates with
  | [] => inr None
  | candidate :: rest =>
      content <- get candidate "content" (JObj []) ;;
      parts <- get content "parts" (JArr []) ;;
      parts <- iter parts ;;
      r <- scan_parts parts ;;
      match r with
      | Some img => inr (Some img)
      | None => scan_candidates rest
      end
  end.

(** The body of the [with] block of [generate_image], after
    [json.loads]: the error check, the search, the final [raise]. *)
Definition extract_image (result : json) : Py.result image :=
  has_error <- contains "error" result ;;
  if has_error : bool then
    error <- subscript result "error" ;;
    message <- get error "message" (JStr "Unknown error") ;;
    inl (Exception message)
  else
    candidates <- get result "candidates" (JArr []) ;;
    candidates <- iter candidates ;;
    r <- scan_candidates candidates ;;
    match r with
    | Some img => inr img
    | None => inl (Exception (JStr "No image in response"))
    end.

(** [except urllib.error.HTTPError as e]: the only class caught here. *)
Definition on_http_error (e : exn) : M image :=
  match e with
  | HTTPError code (Some error_body) =>
      raise (Exception
               (JStr ("HTTP " ++ str_of_int code ++ ": " ++ error_body)))
  | HTTPError code None => raise ValueError
  | _ => raise e
  end.

(** The [try] statement of [generate_image], given its request. *)
Definition call_api (env : environ) (req : request) : M image :=
  try_except
    (result <~ urlopen env req ;;
     lift (extract_image result))
    on_http_error.

(** ['png' if 'png' in image_data['mimeType'] else 'jpg']. *)
Definition extension (mime : json) : result string :=
  is_png <- contains "png" mime ;;
  inr (if is_png : bool then "png" else "jpg").

Definition save_image (env : environ) (name : string) (image_data : image)
  : M string :=
  ext <~ lift (extension (mimeType image_data)) ;;
  let filename := joinpath images_dir (name ++ "." ++ ext) in
  image_bytes <~ lift (b64decode (data image_data)) ;;
  _ <~ write_bytes env filename image_bytes ;;
  _ <~ print (Saved filename) ;;
  ret filename.

(** The counters of [main]. *)
Record tally : Type := {
  successful : nat;
  failed : nat
}.

End Common.

(** ** [generate-images.py] *)

Module GenerateImages.
Import Py Sys Common.

Definition style_guide : string :=
  "
Style requirements:
- Isometric 3D perspective (30-degree angle)
- Flat colors with minimal gradients
- Clean, modern, professional aesthetic
- Color palette: warm tan/gold (#D4A055), white, gray, with subtle accent colors
- No text or labels in the image
- Simple geometric shapes
- Soft shadows for depth
- White or light gray background
- Professional industrial/tech aesthetic
".

Definition image_prompts : list PromptSpec := [
  {| name := "modular-plant-1";
     prompt := "An isometric view of a modular industrial waste processing facility with multiple smokestacks, conveyor systems, and a main processing building. The design is modern with flat tan/brown roofing and industrial gray equipment. Clean lines and professional aesthetic. " ++ style_guide |};
  {| name := "modular-plant-2";
     prompt := "An isometric view of a modular gasification unit with large cylindrical pressure vessels in pink/salmon color, metal piping, and supporting steel structure. Industrial equipment module for a waste-to-energy plant. " ++ style_guide |};
  {| name := "modular-plant-3";
     prompt := "An isometric view of an industrial gas processing module with multiple spherical tanks, a tall cylindrical column, and metal framework. The tanks are in muted pink/beige colors with industrial gray piping. " ++ style_guide |};
  {| name := "pipeline-milwaukee";
     prompt := "An aerial isometric view of a modern waste-to-energy facility campus with multiple buildings, large cylindrical storage tanks, green landscaping, and a parking area. Set in a green countryside. Professional industrial facility. " ++ style_guide |};
  {| name := "pipeline-virginia";
     prompt := "An aerial isometric view of a medium-scale waste processing plant with large dome-shaped biogas digesters, modern industrial buildings, and solar panels on the roof. Clean facility design. " ++ style_guide |};
  {| name := "pipeline-louisiana";
     prompt := "An aerial isometric view of a large industrial petrochemical integration facility with tall processing towers, multiple storage tanks, and steel framework structures. Modern waste-to-energy plant. " ++ style_guide |};
  {| name := "product-jet-fuel";
     prompt := "An isometric view of a metal fuel barrel/drum for jet fuel with a diamond hazard warning label. Industrial steel container with silver metallic finish. Simple clean design. " ++ style_guide |};
  {| name := "product-ethanol";
     prompt := "An isometric view of a glass laboratory bottle containing clear liquid ethanol with a black cap. The bottle has a simple label. Clean laboratory/scientific aesthetic. " ++ style_guide |};
  {| name := "product-meg";
     prompt := "An isometric view of a blue industrial chemical barrel/drum for storing monoethylene glycol. Large 55-gallon drum with blue finish. Industrial container design. " ++ style_guide |};
  {| name := "product-pet";
     prompt := "An isometric view of colorful PET plastic bottles - one red, one green, one orange, and a white container. Representing polyethylene terephthalate products. Consumer plastic bottles. " ++ style_guide |}
].

Definition generate_image (env : environ) (prompt : string) : M image :=
  call_api env (build_request env [JObj [("text", JStr prompt)]] 60).

(** The [try] block of the loop of [main]. *)
Definition attempt (env : environ) (img : PromptSpec) (t : tally) : M tally :=
  image_data <~ generate_image env (prompt img) ;;
  _ <~ save_image env (name img) image_data ;;
  let t := {| successful := S (successful t); failed := failed t |} in
  _ <~ sleep 3 ;;
  ret t.

(** One turn of the loop: the [print], the [try] and its [except]. *)
Definition iteration (env : environ) (img : PromptSpec) (t : tally) : M tally :=
  _ <~ print (Generating (name img)) ;;
  try_except (attempt env img t)
    (fun e =>
       _ <~ print (Failed e) ;;
       ret {| successful := successful t; failed := S (failed t) |}).

(** [for img in image_prompts]. *)
Fixpoint for_each (env : environ) (specs : list PromptSpec) (t : tally)
  : M tally :=
  match specs with
  | [] => ret t
  | img :: rest =>
      t <~ iteration env img t ;;
      for_each env rest t
  end.

(** The counters are set to zero and the loop runs; the result is what
    [main] prints as its summary. *)
Definition run_batch (env : environ) (specs : list PromptSpec) : M tally :=
  for_each env specs {| successful := 0; failed := 0 |}.

(** [main], for any list in the place of [image_prompts]. *)
Definition main_with (env : environ) (specs : list PromptSpec) : M unit :=
  _ <~ print (Text ("Starting IWT image generation..." ++ nl)) ;;
  _ <~ print (GeneratingCount (length specs)) ;;
  t <~ run_batch env specs ;;
  _ <~ print (Text (nl ++ "Image generation complete!")) ;;
  _ <~ print (Successful (successful t)) ;;
  _ <~ print (FailedCount (failed t)) ;;
  print (SavedTo images_dir).

Definition main (env : environ) : M unit := main_with env image_prompts.

(** The module from its first line: the guard on the key, the directory,
    then [main].  The result is the exit status of the process. *)
Definition script_with (env : environ) (specs : list PromptSpec) (w : world)
  : Z * world :=
  if key_missing env then
    let m :=
      _ <~ print (Text "Error: GEMINI_API_KEY environment variable not set") ;;
      _ <~ print (Text "Get your API key from: https://aistudio.google.com/apikey") ;;
      print (Text ("Then run: export GEMINI_API_KEY=" ++ dquote
                   ++ "your-key-here" ++ dquote)) in
    (1%Z, snd (m w))
  else
    match (_ <~ mkdir images_dir ;; main_with env specs) w with
    | (inr _, w') => (0%Z, w')
    | (inl _, w') => (1%Z, w')
    end.

Definition script (env : environ) : world -> Z * world :=
  script_with env image_prompts.

End GenerateImages.

(** ** [generate-process-images.py] *)

Module GenerateProcessImages.
Import Py Sys Common.

Definition style_guide : string :=
  "
Style requirements:
- Isometric 3D perspective (30-degree angle)
- Clean, minimal, professional industrial illustration
- Color palette: warm tan/gold (#D4A055) as accent, white/light gray background, dark gray (#1A1A1A) for equipment
- Simple geometric shapes, no complex details
- Soft shadows for depth
- Square format (1:1 aspect ratio)
- No text or labels in the image
- Single focal point in center
- Professional technical diagram aesthetic
- Consistent lighting from top-left
".

Definition process_steps : list PromptSpec := [
  {| name := "process-step-1";
     prompt := "An isometric illustration of waste reception at an industrial facility.
Show a garbage truck dumping mixed waste (colorful bags, boxes, debris) into a large reception hopper/pit.
The hopper should be a large tan/gold colored industrial container with a hydraulic press mechanism visible.
Waste is being compressed into dense rectangular plugs.
Clean industrial setting with concrete floor.
" ++ style_guide |};
  {| name := "process-step-2";
     prompt := "An isometric illustration of a pyrolysis chamber (degasification).
Show a horizontal cylindrical chamber in dark gray with tan/gold accents.
Inside, show compressed waste plugs moving through the heated chamber.
Wavy heat lines emanating from the chamber walls (orange/red glow).
Steam and gas rising from the chamber into pipes above.
No flames - only radiant heat visualization.
" ++ style_guide |};
  {| name := "process-step-3";
     prompt := "An isometric illustration of a high-temperature gasification reactor.
Show a large vertical cylindrical reactor vessel in dark gray.
Glowing orange/yellow core visible through a window showing 2000°C temperature.
Oxygen injection pipes in blue feeding into the reactor.
Molten material (orange glow) at the bottom.
Synthesis gas pipes exiting from the top.
" ++ style_guide |};
  {| name := "process-step-4";
     prompt := "An isometric illustration of a shock quench cooling system.
Show molten material (glowing orange) falling into a water quench tank.
Steam clouds rising from the rapid cooling process.
The quench tank is a large industrial vessel in tan/gold color.
Conveyor belt carrying cooled dark gray granular material (vitrified slag) out of the tank.
Small metal pellets being separated on a secondary conveyor.
" ++ style_guide |};
  {| name := "process-step-5";
     prompt := "An isometric illustration of a gas cleaning and water treatment system.
Show multiple cylindrical scrubber towers in tan/gold color.
Pipes connecting the towers showing gas flow.
A water treatment basin with clean blue water.
Small containers collecting byproducts: yellow sulfur, gray zinc concentrate, white salts.
Clean synthesis gas pipe exiting to the right.
" ++ style_guide |};
  {| name := "process-step-6";
     prompt := "An isometric illustration of syngas energy conversion outputs.
Show clean synthesis gas pipe entering from the left.
A gas turbine generator in the center producing electricity (with power lines/lightning bolt symbol).
Additional output pipes branching to: a fuel container labeled area, industrial storage tanks.
Green energy symbols or leaf accents to show clean energy.
Power transmission tower in background.
" ++ style_guide |}
].

(** The [parts] list of [generate_image]: with a previous image, an
    instruction, the image and the prompt; without one, the prompt alone. *)
Definition build_parts (prompt : string) (previous_image : option image)
  : list json :=
  match previous_image with
  | Some previous =>
      [JObj [("text", JStr "Here is the previous frame in our process sequence. Generate the next frame maintaining the same visual style, perspective, and color palette:")];
       JObj [("inlineData",
              JObj [("mimeType", mimeType previous);
                    ("data", data previous)])];
       JObj [("text", JStr ("Now generate the next frame:" ++ nl ++ nl ++ prompt))]]
  | None => [JObj [("text", JStr prompt)]]
  end.

Definition generate_image (env : environ) (prompt : string)
    (previous_image : option image) : M image :=
  call_api env (build_request env (build_parts prompt previous_image) 90).

(** The locals of [main] that the loop updates. *)
Record locals : Type := {
  counts : tally;
  previous_image : option image
}.

(** The [try] block of the loop of [main]. *)
Definition attempt (env : environ) (step : PromptSpec) (st : locals)
  : M locals :=
  image_data <~ generate_image env (prompt step) (previous_image st) ;;
  _ <~ save_image env (name step) image_data ;;
  let st := {| counts := {| successful := S (successful (counts st));
                            failed := failed (counts st) |};
               previous_image := Some image_data |} in
  _ <~ sleep 3 ;;
  ret st.

(** One turn of the loop: the [print], the [try] and its [except]. *)
Definition iteration (env : environ) (i : nat) (step : PromptSpec)
    (st : locals) : M locals :=
  _ <~ print (GeneratingStep (name step) (i + 1)) ;;
  try_except (attempt env step st)
    (fun e =>
       _ <~ print (Failed e) ;;
       ret {| counts := {| successful := successful (counts st);
                           failed := S (failed (counts st)) |};
              previous_image := None |}).

(** [for i, step in enumerate(process_steps)], from index [i] on. *)
Fixpoint for_each (env : environ) (i : nat) (steps : list PromptSpec)
    (st : locals) : M locals :=
  match steps with
  | [] => ret st
  | step :: rest =>
      st <~ iteration env i step st ;;
      for_each env (S i) rest st
  end.

Definition initial : locals :=
  {| counts := {| successful := 0; failed := 0 |}; previous_image := None |}.

(** The locals are initialised and the loop runs; the counters of the
    result are what [main] prints as its summary. *)
Definition run_batch (env : environ) (steps : list PromptSpec) : M locals :=
  for_each env 0 steps initial.

(** [main], for any list in the place of [process_steps]. *)
Definition main_with (env : environ) (steps : list PromptSpec) : M unit :=
  _ <~ print (Text ("Generating process step images for science section flipbook..." ++ nl)) ;;
  _ <~ print (Text ("Each image will be fed into the next for visual continuity." ++ nl)) ;;
  st <~ run_batch env steps ;;
  _ <~ print (Text (nl ++ "Generation complete!")) ;;
  _ <~ print (Successful (successful (counts st))) ;;
  print (FailedCount (failed (counts st))).

Definition main (env : environ) : M unit := main_with env process_steps.

(** The module from its first line. *)
Definition script_with (env : environ) (steps : list PromptSpec) (w : world)
  : Z * world :=
  if key_missing env then
    (1%Z, snd (print (Text "Error: GEMINI_API_KEY environment variable not set") w))
  else
    match (_ <~ mkdir images_dir ;; main_with env steps) w with
    | (inr _, w') => (0%Z, w')
    | (inl _, w') => (1%Z, w')
    end.

Definition script (env : environ) : world -> Z * world :=
  script_with env process_steps.

End GenerateProcessImages.

(** ** [generate-hero.py] *)

Module GenerateHero.
Import Py Sys Common.

Definition prompt : string :=
  "
Create a wide, abstract illustration representing waste-to-energy transformation for a company website hero section.

The image should show:
- On the left side: Abstract/stylized representation of waste/garbage (geometric shapes, simplified forms)
- In the center: A transformation process - energy flow, light rays, or conversion symbolism
- On the right side: Clean energy powering technology - subtle data center or power symbols

Style requirements:
- Warm color palette dominated by tan/gold (#D4A055) and amber tones
- Clean, modern, corporate aesthetic
- Abstract and artistic - NOT realistic garbage or facilities
- Subtle, not overpowering - this will be a background image
- Flowing, dynamic composition from left to right
- Light/white background that fades to transparent or light gray
- Professional and sophisticated
- Minimal detail, more suggestive shapes and gradients
- Isometric or flat design style

This is for a professional B2B company website. The image should convey transformation, sustainability, and technology without being literal or cartoonish. Think abstract data visualization meets energy flow diagram.
".

(** [for part in ...]: the first part with an [inlineData] key is decoded
    and written, and the function returns ([true]); [false] when the loop
    runs to its end. *)
Fixpoint save_first_part (env : environ) (parts : list json) : M bool :=
  match parts with
  | [] => ret false
  | part :: rest =>
      found <~ lift (contains "inlineData" part) ;;
      if found : bool then
        ext <~ lift (inline <- subscript part "inlineData" ;;
                     m <- subscript inline "mimeType" ;;
                     extension m) ;;
        let filename := joinpath images_dir ("hero-bg." ++ ext) in
        image_bytes <~ lift (inline <- subscript part "inlineData" ;;
                             d <- subscript inline "data" ;;
                             b64decode d) ;;
        _ <~ write_bytes env filename image_bytes ;;
        _ <~ print (Saved filename) ;;
        ret true
      else save_first_part env rest
  end.

(** [for candidate in result.get('candidates', [])]. *)
Fixpoint save_first_candidate (env : environ) (candidates : list json)
  : M bool :=
  match candidates with
  | [] => ret false
  | candidate :: rest =>
      parts <~ lift (content <- get candidate "content" (JObj []) ;;
                     parts <- get content "parts" (JArr []) ;;
                     iter parts) ;;
      returned <~ save_first_part env parts ;;
      if returned : bool then ret true
      else save_first_candidate env rest
  end.

Definition generate_image (env : environ) : M unit :=
  let req := build_request env [JObj [("text", JStr prompt)]] 60 in
  _ <~ print (Text "Generating hero background...") ;;
  result <~ urlopen env req ;;
  candidates <~ lift (candidates <- get result "candidates" (JArr []) ;;
                      iter candidates) ;;
  returned <~ save_first_candidate env candidates ;;
  if returned : bool then ret tt
  else print (Text "No image generated").

(** The module from its first line: no guard on the key.  An exception
    that leaves [generate_image] ends the process with status 1. *)
Definition script (env : environ) (w : world) : Z * world :=
  match (_ <~ mkdir images_dir ;; generate_image env) w with
  | (inr _, w') => (0%Z, w')
  | (inl _, w') => (1%Z, w')
  end.

End GenerateHero.

(** ** The shape of an answer *)

Module Schema.
Import Py Sys Common.

(** The parts of one candidate, when it has the documented shape: an
    object whose [content], if present, is an object whose [parts], if
    present, is a list. *)
Definition candidate_parts (candidate : json) : option (list json) :=
  match candidate with
  | JObj fields =>
      match lookup "content" fields with
      | None => Some []
      | Some (JObj content) =>
          match lookup "parts" content with
          | None => Some []
          | Some (JArr parts) => Some parts
          | Some _ => None
          end
      | Some _ => None
      end
  | _ => None
  end.

Fixpoint gather (candidates : list json) : option (list json) :=
  match candidates with
  | [] => Some []
  | candidate :: rest =>
      match candidate_parts candidate, gather rest with
      | Some parts, Some more => Some (parts ++ more)%list
      | _, _ => None
      end
  end.

(** All the parts of an answer: candidates in order, and the parts of each
    candidate in order. *)
Definition all_parts (result : json) : option (list json) :=
  match result with
  | JObj fields =>
      match lookup "candidates" fields with
      | None => Some []
      | Some (JArr candidates) => gather candidates
      | Some _ => None
      end
  | _ => None
  end.

(** A part with inline image data. *)
Definition has_inline (part : json) : bool :=
  match part with
  | JObj fields => bool_decide (is_Some (lookup "inlineData" fields))
  | _ => false
  end.

(** Its payload: the mime type and the base64 data. *)
Definition inline_image (part : json) : option image :=
  match part with
  | JObj fields =>
      match lookup "inlineData" fields with
      | Some (JObj inline) =>
          match lookup "mimeType" inline, lookup "data" inline with
          | Some m, Some d => Some {| mimeType := m; data := d |}
          | _, _ => None
          end
      | _ => None
      end
  | _ => None
  end.

(** A part is an object, and its [inlineData], if present, carries a mime
    type and data. *)
Definition part_ok (part : json) : bool :=
  match part with
  | JObj _ => implb (has_inline part) (bool_decide (is_Some (inline_image part)))
  | _ => false
  end.

(** The first inline image of a list of parts. *)
Definition first_image (parts : list json) : option image :=
  match find has_inline parts with
  | Some part => inline_image part
  | None => None
  end.

End Schema.

(** ** Reading a trace *)

Module Observe.
Import Py Sys Common.

(** The pauses between one request and the next: one list of [sleep]
    arguments for each pair of successive requests of the trace. *)
Fixpoint pauses_from (t : list event) (since_last : list Z) : list (list Z) :=
  match t with
  | [] => []
  | Urlopen _ :: t' => since_last :: pauses_from t' []
  | Sleep secs :: t' => pauses_from t' (since_last ++ [secs])%list
  | _ :: t' => pauses_from t' since_last
  end.

Definition pauses (t : list event) : list (list Z) :=
  match pauses_from t [] with
  | [] => []
  | _ :: gaps => gaps
  end.

Fixpoint mkdirs (t : list event) : list string :=
  match t with
  | [] => []
  | Mkdir p :: t' => p :: mkdirs t'
  | _ :: t' => mkdirs t'
  end.

(** What [generate_image] of a batch script returns or raises, given the
    outcome of its request. *)
Definition api_result (outcome : http_outcome) : result image :=
  match outcome with
  | Responded result => extract_image result
  | Garbled => inl ValueError
  | Refused code (Some error_body) =>
      inl (Exception (JStr ("HTTP " ++ str_of_int code ++ ": " ++ error_body)))
  | Refused code None => inl ValueError
  | Unreachable reason => inl (URLError reason)
  end.

(** The path [save_image] builds from a name and an extension. *)
Definition image_path (name ext : string) : string :=
  joinpath images_dir (name ++ "." ++ ext).

(** The world after [save_image] wrote [image_bytes] to [filename]. *)
Definition written (w : world) (filename : string) (image_bytes : list byte)
  : world :=
  {| trace := (trace w ++ [WriteBytes filename image_bytes;
                           Print (Saved filename)])%list;
     files := <[filename := image_bytes]> (files w) |}.

(** An outcome other than a raised [HTTPError]. *)
Definition plain {A} (r : result A) : Prop :=
  match r with
  | inl (HTTPError _ _) => False
  | _ => True
  end.

(** The two extensions [save_image] can choose. *)
Definition known_extension (ext : string) : Prop := ext = "png" \/ ext = "jpg".

(** The path a saved file has for an entry. *)
Definition saved_for (spec : PromptSpec) (f : string * list byte) : Prop :=
  f.1 = image_path (name spec) "png" \/ f.1 = image_path (name spec) "jpg".

Definition store (m : gmap string (list byte)) (f : string * list byte)
  : gmap string (list byte) := <[f.1 := f.2]> m.

(** The entry can be generated and saved, in whatever state the run is. *)
Definition succeeds (env : environ) (spec : PromptSpec) : Prop :=
  forall w0, exists image_data w1,
    GenerateImages.generate_image env (prompt spec) w0 = (inr image_data, w1) /\
    forall w2, exists path w3,
      save_image env (name spec) image_data w2 = (inr path, w3).

(** What the error check of [extract_image] raises, given the value under
    the [error] key: its [message], [Unknown error] when it is an object
    without one, and [AttributeError] when it is no object and so has no
    [get]. *)
Definition error_failure (error : json) : exn :=
  match error with
  | JObj fields =>
      match lookup "message" fields with
      | Some message => Exception message
      | None => Exception (JStr "Unknown error")
      end
  | _ => AttributeError
  end.

(** The request [generate-hero.py] sends. *)
Definition hero_request (env : environ) : request :=
  build_request env [JObj [("text", JStr GenerateHero.prompt)]] 60.

(** The request [generate-images.py] sends for an entry. *)
Definition images_request (env : environ) (img : PromptSpec) : request :=
  build_request env [JObj [("text", JStr (prompt img))]] 60.

(** The request [generate-process-images.py] sends for a step, given the
    context. *)
Definition process_request (env : environ) (step : PromptSpec)
    (previous_image : option image) : request :=
  build_request env
    (GenerateProcessImages.build_parts (prompt step) previous_image) 90.

(** The two ways a turn of a loop updates the counters. *)
Definition counted_ok (t : tally) : tally :=
  {| successful := S (successful t); failed := failed t |}.

Definition counted_failed (t : tally) : tally :=
  {| successful := successful t; failed := S (failed t) |}.

(** The two ways a turn of the chained loop updates its locals. *)
Definition chained_ok (st : GenerateProcessImages.locals) (image_data : image)
  : GenerateProcessImages.locals :=
  {| GenerateProcessImages.counts :=
       counted_ok (GenerateProcessImages.counts st);
     GenerateProcessImages.previous_image := Some image_data |}.

Definition chained_failed (st : GenerateProcessImages.locals)
  : GenerateProcessImages.locals :=
  {| GenerateProcessImages.counts :=
       counted_failed (GenerateProcessImages.counts st);
     GenerateProcessImages.previous_image := None |}.

(** Step [i] of the chained loop up to the end of [save_image]: the image
    it generated and saved, or the exception that stopped it. *)
Definition step_outcome (env : environ) (i : nat) (step : PromptSpec)
    (st : GenerateProcessImages.locals) : M image :=
  _ <~ print (GeneratingStep (name step) (i + 1)) ;;
  image_data <~ GenerateProcessImages.generate_image env (prompt step)
                  (GenerateProcessImages.previous_image st) ;;
  _ <~ save_image env (name step) image_data ;;
  ret image_data.

(** The context a step hands to the next one. *)
Definition handed_on (r : result image * world) : option image :=
  match r with
  | (inr image_data, _) => Some image_data
  | (inl _, _) => None
  end.

End Observe.

(** ** Concrete answers and environments *)

Module Fixtures.
Import Py Sys Common.

(** The base64 text of the five bytes of [hello]. *)
Definition png_part : json :=
  JObj [("inlineData",
         JObj [("mimeType", JStr "image/png"); ("data", JStr "aGVsbG8=")])].

(** The base64 text of the five bytes of [world]. *)
Definition jpeg_part : json :=
  JObj [("inlineData",
         JObj [("mimeType", JStr "image/jpeg"); ("data", JStr "d29ybGQ=")])].

Definition text_part : json := JObj [("text", JStr "Here is your image.")].

Definition answer (parts : list json) : json :=
  JObj [("candidates", JArr [JObj [("content", JObj [("parts", JArr parts)])]])].

Definition image_answer : json := answer [text_part; png_part; jpeg_part].

Definition text_answer : json := answer [text_part].

(** A success status whose body reports an error and carries an image. *)
Definition error_answer : json :=
  JObj [("error", JObj [("code", JInt 429); ("message", JStr "Quota exceeded")]);
        ("candidates", JArr [JObj [("content", JObj [("parts", JArr [png_part])])]])].

Definition hello : list byte := [x68; x65; x6c; x6c; x6f].

Definition png_image : image :=
  {| mimeType := JStr "image/png"; data := JStr "aGVsbG8=" |}.

Definition empty_world : world := {| trace := []; files := ∅ |}.

(** The service always answers with [image_answer]. *)
Definition env_ok : environ :=
  {| GEMINI_API_KEY := Some "secret";
     remote := fun _ _ => Responded image_answer;
     write_fails := fun _ => false |}.

Definition env_no_key : environ :=
  {| GEMINI_API_KEY := None;
     remote := fun _ _ => Responded image_answer;
     write_fails := fun _ => false |}.

(** The service refuses the first request and answers the later ones. *)
Definition env_first_refused : environ :=
  {| GEMINI_API_KEY := Some "secret";
     remote := fun k _ =>
       match k with
       | 0 => Refused 429 (Some "rate limited")
       | _ => Responded image_answer
       end;
     write_fails := fun _ => false |}.

(** The service answers, refuses the second request, and answers again. *)
Definition env_second_refused : environ :=
  {| GEMINI_API_KEY := Some "secret";
     remote := fun k _ =>
       match k with
       | 1 => Refused 503 (Some "unavailable")
       | _ => Responded image_answer
       end;
     write_fails := fun _ => false |}.

(** The service answers with text and no image. *)
Definition env_text_only : environ :=
  {| GEMINI_API_KEY := Some "secret";
     remote := fun _ _ => Responded text_answer;
     write_fails := fun _ => false |}.

(** The service reports an error inside a successful answer. *)
Definition env_error_answer : environ :=
  {| GEMINI_API_KEY := Some "secret";
     remote := fun _ _ => Responded error_answer;
     write_fails := fun _ => false |}.

Definition three_specs : list PromptSpec :=
  [{| name := "one"; prompt := "first" |};
   {| name := "two"; prompt := "second" |};
   {| name := "three"; prompt := "third" |}].

End Fixtures.

(** ** More to read off a run, and more environments *)

Module Probe.
Import Py Sys Common.

(** A statement that sends no request, whatever it is run in. *)
Definition quiet {A : Type} (m : M A) : Prop :=
  forall w, requests (trace (m w).2) = requests (trace w).




Definition world_bytes : list byte := [x77; x6f; x72; x6c; x64].


(** The variable is set, to the empty string. *)
Definition env_empty_key : environ :=
  {| GEMINI_API_KEY := Some "";
     remote := fun _ _ => Responded Fixtures.image_answer;
     write_fails := fun _ => false |}.

(** The service never answers. *)
Definition env_down : environ :=
  {| GEMINI_API_KEY := Some "secret";
     remote := fun _ _ => Unreachable "timed out";
     write_fails := fun _ => false |}.


(** A world in which [images/one.png] already exists. *)
Definition used_world : world :=
  {| trace := [];
     files := {[ "images/one.png" := world_bytes;
                 "notes.txt" := world_bytes ]} |}.

End Probe.

(** ** The batch scripts on a console and a disk that can refuse

    In [Sys] the console shows every line, [images] can always be made,
    and a write either is refused before the file is touched or
    completes.  Here each of the three may go wrong, as a function of what
    has happened so far:
    - [print] raises when the console cannot take the line (a text the
      encoding of [stdout] does not cover, a closed pipe);
    - [mkdir(exist_ok=True)] raises when [images] cannot be made, for
      instance because it is a regular file;
    - [write_bytes] opens the file for writing, which empties it, and may
      raise before the open or after some of the bytes.
    The loops, [main] and the module level of the two batch scripts are
    embedded again on these; [generate_image] prints nothing and writes
    nothing and is the one of the scripts' modules. *)

Module Hazard.
Import Py Sys Common.

(** How a call of [write_bytes] ends: with the file written; or with an
    exception, the file untouched ([None]) or left with the first [n]
    bytes ([Some n], the open having emptied it). *)
Inductive write_result : Type :=
| Completes
| Breaks (kept : option nat) (e : exn).

Record hazards : Type := {
  console : list event -> line -> option exn;
  mkdir_raises : option exn;
  disk : list event -> string -> list byte -> write_result
}.

Definition print (h : hazards) (l : line) : M unit :=
  fun w =>
    match console h (trace w) l with
    | None => (inr tt, after w [Print l])
    | Some e => (inl e, w)
    end.

Definition mkdir (h : hazards) (path : string) : M unit :=
  fun w =>
    match mkdir_raises h with
    | None => (inr tt, after w [Mkdir path])
    | Some e => (inl e, w)
    end.

Definition write_bytes (h : hazards) (filename : string)
    (image_bytes : list byte) : M unit :=
  fun w =>
    match disk h (trace w) filename image_bytes with
    | Completes =>
        (inr tt, {| trace := trace w ++ [WriteBytes filename image_bytes];
                    files := <[filename := image_bytes]> (files w) |})
    | Breaks None e => (inl e, w)
    | Breaks (Some n) e =>
        (inl e, {| trace := trace w;
                   files := <[filename := take n image_bytes]> (files w) |})
    end.

(** [save_image] of the two batch scripts. *)
Definition save_image (h : hazards) (name : string) (image_data : image)
  : M string :=
  ext <~ lift (extension (mimeType image_data)) ;;
  let filename := joinpath images_dir (name ++ "." ++ ext) in
  image_bytes <~ lift (b64decode (data image_data)) ;;
  _ <~ write_bytes h filename image_bytes ;;
  _ <~ print h (Saved filename) ;;
  ret filename.

(** The [except] clause of either loop: the failure is printed, then
    counted; [failed_state] is what the clause leaves when its [print]
    went through. *)
Definition handler {S : Type} (h : hazards) (failed_state : S) (e : exn)
  : M S :=
  _ <~ print h (Failed e) ;;
  ret failed_state.

(** *** [generate-images.py] *)

Module Images.

(** The [try] block of the loop of [main]. *)
Definition attempt (env : environ) (h : hazards) (img : PromptSpec)
    (t : tally) : M tally :=
  image_data <~ GenerateImages.generate_image env (prompt img) ;;
  _ <~ save_image h (name img) image_data ;;
  let t := {| successful := S (successful t); failed := failed t |} in
  _ <~ sleep 3 ;;
  ret t.

(** One turn of the loop: the [print], the [try], and the [except] clause
    with its own [print] before the counter. *)
Definition iteration (env : environ) (h : hazards) (img : PromptSpec)
    (t : tally) : M tally :=
  _ <~ print h (Generating (name img)) ;;
  try_except (attempt env h img t)
    (fun e =>
       _ <~ print h (Failed e) ;;
       ret {| successful := successful t; failed := S (failed t) |}).

Fixpoint for_each (env : environ) (h : hazards) (specs : list PromptSpec)
    (t : tally) : M tally :=
  match specs with
  | [] => ret t
  | img :: rest =>
      t <~ iteration env h img t ;;
      for_each env h rest t
  end.

Definition run_batch (env : environ) (h : hazards) (specs : list PromptSpec)
  : M tally :=
  for_each env h specs {| successful := 0; failed := 0 |}.

Definition main_with (env : environ) (h : hazards) (specs : list PromptSpec)
  : M unit :=
  _ <~ print h (Text ("Starting IWT image generation..." ++ nl)) ;;
  _ <~ print h (GeneratingCount (length specs)) ;;
  t <~ run_batch env h specs ;;
  _ <~ print h (Text (nl ++ "Image generation complete!")) ;;
  _ <~ print h (Successful (successful t)) ;;
  _ <~ print h (FailedCount (failed t)) ;;
  print h (SavedTo images_dir).

(** The module from its first line; an exception that nothing catches
    ends the process with status 1. *)
Definition script_with (env : environ) (h : hazards)
    (specs : list PromptSpec) (w : world) : Z * world :=
  if key_missing env then
    let m :=
      _ <~ print h (Text "Error: GEMINI_API_KEY environment variable not set") ;;
      _ <~ print h (Text "Get your API key from: https://aistudio.google.com/apikey") ;;
      print h (Text ("Then run: export GEMINI_API_KEY=" ++ dquote
                     ++ "your-key-here" ++ dquote)) in
    (1%Z, snd (m w))
  else
    match (_ <~ mkdir h images_dir ;; main_with env h specs) w with
    | (inr _, w') => (0%Z, w')
    | (inl _, w') => (1%Z, w')
    end.

Definition script (env : environ) (h : hazards) : world -> Z * world :=
  script_with env h GenerateImages.image_prompts.

End Images.

(** *** [generate-process-images.py] *)

Module Process.

Definition attempt (env : environ) (h : hazards) (step : PromptSpec)
    (st : GenerateProcessImages.locals) : M GenerateProcessImages.locals :=
  image_data <~ GenerateProcessImages.generate_image env (prompt step)
                  (GenerateProcessImages.previous_image st) ;;
  _ <~ save_image h (name step) image_data ;;
  let st :=
    {| GenerateProcessImages.counts :=
         {| successful := S (successful (GenerateProcessImages.counts st));
            failed := failed (GenerateProcessImages.counts st) |};
       GenerateProcessImages.previous_image := Some image_data |} in
  _ <~ sleep 3 ;;
  ret st.

Definition iteration (env : environ) (h : hazards) (i : nat)
    (step : PromptSpec) (st : GenerateProcessImages.locals)
  : M GenerateProcessImages.locals :=
  _ <~ print h (GeneratingStep (name step) (i + 1)) ;;
  try_except (attempt env h step st)
    (fun e =>
       _ <~ print h (Failed e) ;;
       ret {| GenerateProcessImages.counts :=
                {| successful := successful (GenerateProcessImages.counts st);
                   failed := S (failed (GenerateProcessImages.counts st)) |};
              GenerateProcessImages.previous_image := None |}).

Fixpoint for_each (env : environ) (h : hazards) (i : nat)
    (steps : list PromptSpec) (st : GenerateProcessImages.locals)
  : M GenerateProcessImages.locals :=
  match steps with
  | [] => ret st
  | step :: rest =>
      st <~ iteration env h i step st ;;
      for_each env h (S i) rest st
  end.

Definition run_batch (env : environ) (h : hazards) (steps : list PromptSpec)
  : M GenerateProcessImages.locals :=
  for_each env h 0 steps GenerateProcessImages.initial.

Definition main_with (env : environ) (h : hazards) (steps : list PromptSpec)
  : M unit :=
  _ <~ print h (Text ("Generating process step images for science section flipbook..." ++ nl)) ;;
  _ <~ print h (Text ("Each image will be fed into the next for visual continuity." ++ nl)) ;;
  st <~ run_batch env h steps ;;
  _ <~ print h (Text (nl ++ "Generation complete!")) ;;
  _ <~ print h (Successful (successful (GenerateProcessImages.counts st))) ;;
  print h (FailedCount (failed (GenerateProcessImages.counts st))).

Definition script_with (env : environ) (h : hazards)
    (steps : list PromptSpec) (w : world) : Z * world :=
  if key_missing env then
    (1%Z, snd (print h (Text "Error: GEMINI_API_KEY environment variable not set") w))
  else
    match (_ <~ mkdir h images_dir ;; main_with env h steps) w with
    | (inr _, w') => (0%Z, w')
    | (inl _, w') => (1%Z, w')
    end.

Definition script (env : environ) (h : hazards) : world -> Z * world :=
  script_with env h GenerateProcessImages.process_steps.

End Process.

(** The hazards under which nothing goes wrong but what [Sys] already
    has: a write the environment refuses. *)
Definition calm (env : environ) : hazards :=
  {| console := fun _ _ => None;
     mkdir_raises := None;
     disk := fun _ filename _ =>
       if write_fails env filename then Breaks None (OSError filename)
       else Completes |}.

(** A console whose encoding covers ASCII only: it cannot take the line of
    a failure whose message has another character. *)
Definition ascii_console (t : list event) (l : line) : option exn :=
  match l with
  | Failed (Exception (JStr s)) =>
      if ascii_only s then None else Some ValueError
  | _ => None
  end.

Definition ascii_only_console : hazards :=
  {| console := ascii_console;
     mkdir_raises := None;
     disk := fun _ _ _ => Completes |}.

(** [images] is a regular file. *)
Definition images_is_a_file : hazards :=
  {| console := fun _ _ => None;
     mkdir_raises := Some (OSError images_dir);
     disk := fun _ _ _ => Completes |}.

(** The disk fills up: every write empties the file, stores two bytes and
    raises. *)
Definition disk_full : hazards :=
  {| console := fun _ _ => None;
     mkdir_raises := None;
     disk := fun _ filename _ => Breaks (Some 2) (OSError filename) |}.

(** The service refuses the first request with a message that is not
    ASCII, and answers the later ones with an image. *)
Definition env_accent : environ :=
  {| GEMINI_API_KEY := Some "secret";
     remote := fun k _ =>
       match k with
       | 0 => Refused 429 (Some "limite dépassée")
       | _ => Responded Fixtures.image_answer
       end;
     write_fails := fun _ => false |}.

End Hazard.

(** * Part II: lemmas and properties *)

Open Scope list_scope.

(** ** Base64: decoding undoes encoding *)

Lemma below_spec k P :
  Base64.below k P = true -> forall n, (n < N.of_nat k)%N -> P n = true.
Proof.
  unfold Base64.below. rewrite forallb_forall. intros H n Hn.
  apply H. apply in_map_iff. exists (N.to_nat n). split.
  - apply N2Nat.id.
  - apply in_seq. lia.
Qed.

Lemma b2a_table n :
  (n < 64)%N ->
  Ascii.eqb (Base64.b2a n) Base64.BASE64_PAD = false /\
  Base64.table_a2b_base64 (N_of_ascii (Base64.b2a n)) = n.
Proof.
  intros Hn.
  assert (Hc : Base64.below 64
            (fun n => negb (Ascii.eqb (Base64.b2a n) Base64.BASE64_PAD)
                      && (Base64.table_a2b_base64 (N_of_ascii (Base64.b2a n)) =? n)%N)
          = true) by (vm_compute; reflexivity).
  apply (below_spec 64 _ Hc) in Hn.
  apply andb_prop in Hn as [H1 H2].
  split.
  - now apply negb_true_iff in H1.
  - now apply N.eqb_eq.
Qed.

(** One turn of the loop on an alphabet character. *)
Lemma a2b_loop_data n rest quad_pos leftchar pads :
  (n < 64)%N ->
  Base64.a2b_loop (String (Base64.b2a n) rest) quad_pos leftchar pads =
  match quad_pos with
  | 0 => Base64.a2b_loop rest 1 n 0
  | 1 => Base64.emit
           (Base64.uchar (N.lor (N.shiftl leftchar 2) (N.shiftr n 4)))
           (Base64.a2b_loop rest 2 (N.land n 15) 0)
  | 2 => Base64.emit
           (Base64.uchar (N.lor (N.shiftl leftchar 4) (N.shiftr n 2)))
           (Base64.a2b_loop rest 3 (N.land n 3) 0)
  | _ => Base64.emit
           (Base64.uchar (N.lor (N.shiftl leftchar 6) n))
           (Base64.a2b_loop rest 0 0 0)
  end.
Proof.
  intros Hn. destruct (b2a_table n Hn) as [Hpad Htab].
  cbn [Base64.a2b_loop]. rewrite Hpad, Htab.
  assert (Hlt : (64 <=? n)%N = false) by (apply N.leb_gt; exact Hn).
  rewrite Hlt. reflexivity.
Qed.

Lemma group_check_all x y :
  (x < 256)%N -> (y < 256)%N -> Base64.group_check x y = true.
Proof.
  intros Hx Hy.
  assert (Hc : Base64.below 256
                 (fun x => Base64.below 256 (fun y => Base64.group_check x y))
               = true)
    by (vm_compute; reflexivity).
  apply (below_spec 256 _ (below_spec 256 _ Hc x Hx) y Hy).
Qed.

Lemma to_N_lt (b : byte) : (Byte.to_N b < 256)%N.
Proof. pose proof (Byte.to_N_bounded b). lia. Qed.

Lemma uchar_to_N (b : byte) : Base64.uchar (Byte.to_N b) = b.
Proof.
  unfold Base64.uchar. rewrite N.mod_small by apply to_N_lt.
  now rewrite Byte.of_to_N.
Qed.

(** The facts of [group_check], one by one. *)
Lemma sextets_lt x y :
  (x < 256)%N -> (y < 256)%N ->
  (Base64.sextet0 x < 64)%N /\ (Base64.sextet1 x y < 64)%N /\
  (Base64.sextet2 x y < 64)%N /\ (Base64.sextet3 x < 64)%N.
Proof.
  intros Hx Hy. pose proof (group_check_all x y Hx Hy) as H.
  unfold Base64.group_check in H.
  repeat (apply andb_prop in H as [H ?]).
  repeat split; now apply N.ltb_lt.
Qed.

Lemma regroup x y z :
  (x < 256)%N -> (y < 256)%N -> (z < 256)%N ->
  Base64.uchar (N.lor (N.shiftl (Base64.sextet0 x) 2)
                      (N.shiftr (Base64.sextet1 x y) 4)) = Base64.uchar x /\
  Base64.uchar (N.lor (N.shiftl (N.land (Base64.sextet1 x y) 15) 4)
                      (N.shiftr (Base64.sextet2 y z) 2)) = Base64.uchar y /\
  Base64.uchar (N.lor (N.shiftl (N.land (Base64.sextet2 y z) 3) 6)
                      (Base64.sextet3 z)) = Base64.uchar z.
Proof.
  intros Hx Hy Hz.
  pose proof (group_check_all x y Hx Hy) as H1.
  pose proof (group_check_all y z Hy Hz) as H2.
  unfold Base64.group_check in H1, H2.
  repeat (apply andb_prop in H1 as [H1 ?]).
  repeat (apply andb_prop in H2 as [H2 ?]).
  repeat match goal with H : (_ =? _)%N = true |- _ => apply N.eqb_eq in H end.
  assert (U : forall n m, (m < 256)%N -> (n mod 256 = m)%N ->
                           Base64.uchar n = Base64.uchar m).
  { intros n m Hm E. unfold Base64.uchar. rewrite E.
    now rewrite (N.mod_small m 256). }
  repeat split; apply U; try assumption.
  - replace (N.land (Base64.sextet1 x y) 15) with (N.shiftr y 4) by congruence.
    replace (N.shiftr (Base64.sextet2 y z) 2) with (N.land y 15) by congruence.
    assumption.
Qed.

(** A full group of four characters gives back its three bytes. *)
Lemma a2b_loop_group a b c rest :
  Base64.a2b_loop
    (String (Base64.b2a (Base64.sextet0 (Byte.to_N a)))
       (String (Base64.b2a (Base64.sextet1 (Byte.to_N a) (Byte.to_N b)))
          (String (Base64.b2a (Base64.sextet2 (Byte.to_N b) (Byte.to_N c)))
             (String (Base64.b2a (Base64.sextet3 (Byte.to_N c))) rest)))) 0 0 0
  = Base64.emit a (Base64.emit b (Base64.emit c (Base64.a2b_loop rest 0 0 0))).
Proof.
  pose proof (to_N_lt a) as Ha. pose proof (to_N_lt b) as Hb.
  pose proof (to_N_lt c) as Hc.
  destruct (sextets_lt _ _ Ha Hb) as (L0 & L1 & _ & _).
  destruct (sextets_lt _ _ Hb Hc) as (_ & _ & L2 & _).
  destruct (sextets_lt _ _ Hc Hc) as (_ & _ & _ & L3).
  destruct (regroup _ _ _ Ha Hb Hc) as (R0 & R1 & R2).
  rewrite (a2b_loop_data _ _ 0 _ _ L0).
  rewrite (a2b_loop_data _ _ 1 _ _ L1).
  rewrite (a2b_loop_data _ _ 2 _ _ L2).
  rewrite (a2b_loop_data _ _ 3 _ _ L3).
  rewrite R0, R1, R2, !uchar_to_N. reflexivity.
Qed.

Lemma list_ind3 {A} (P : list A -> Prop) :
  P [] -> (forall a, P [a]) -> (forall a b, P [a; b]) ->
  (forall a b c l, P l -> P (a :: b :: c :: l)) ->
  forall l, P l.
Proof.
  intros H0 H1 H2 H3.
  fix IH 1. intros [|a [|b [|c l]]].
  - exact H0.
  - apply H1.
  - apply H2.
  - apply H3. apply IH.
Qed.

(** [a2b_base64] is a left inverse of [b64encode]. *)
Lemma a2b_base64_b64encode (s : list byte) :
  Base64.a2b_base64 (Base64.b64encode s) = inr s.
Proof.
  unfold Base64.a2b_base64.
  induction s as [|a|a b|a b c l IH] using list_ind3.
  - reflexivity.
  - pose proof (to_N_lt a) as Ha.
    assert (H0 : (0 < 256)%N) by lia.
    destruct (sextets_lt _ _ Ha H0) as (L0 & L1 & _ & _).
    destruct (regroup _ _ _ Ha H0 H0) as (R0 & _ & _).
    cbn [Base64.b64encode].
    rewrite (a2b_loop_data _ _ 0 _ _ L0).
    rewrite (a2b_loop_data _ _ 1 _ _ L1).
    rewrite R0, uchar_to_N. reflexivity.
  - pose proof (to_N_lt a) as Ha. pose proof (to_N_lt b) as Hb.
    assert (H0 : (0 < 256)%N) by lia.
    destruct (sextets_lt _ _ Ha Hb) as (L0 & L1 & _ & _).
    destruct (sextets_lt _ _ Hb H0) as (_ & _ & L2 & _).
    destruct (regroup _ _ _ Ha Hb H0) as (R0 & R1 & _).
    cbn [Base64.b64encode].
    rewrite (a2b_loop_data _ _ 0 _ _ L0).
    rewrite (a2b_loop_data _ _ 1 _ _ L1).
    rewrite (a2b_loop_data _ _ 2 _ _ L2).
    rewrite R0, R1, !uchar_to_N. reflexivity.
  - cbn [Base64.b64encode]. rewrite a2b_loop_group, IH. reflexivity.
Qed.

(** The encoder writes ASCII characters only. *)
Lemma b2a_ascii n :
  (n < 64)%N -> (N_of_ascii (Base64.b2a n) <? 128)%N = true.
Proof.
  assert (Hc : Base64.below 64
                 (fun n => (N_of_ascii (Base64.b2a n) <? 128)%N) = true)
    by (vm_compute; reflexivity).
  apply (below_spec 64 _ Hc).
Qed.

Lemma ascii_only_b64encode (s : list byte) :
  Py.ascii_only (Base64.b64encode s) = true.
Proof.
  assert (H0 : (0 < 256)%N) by lia.
  induction s as [|a|a b|a b c l IH] using list_ind3.
  - reflexivity.
  - pose proof (to_N_lt a) as Ha.
    destruct (sextets_lt _ _ Ha H0) as (L0 & L1 & _ & _).
    cbn [Base64.b64encode Py.ascii_only].
    rewrite (b2a_ascii _ L0), (b2a_ascii _ L1). reflexivity.
  - pose proof (to_N_lt a) as Ha. pose proof (to_N_lt b) as Hb.
    destruct (sextets_lt _ _ Ha Hb) as (L0 & L1 & _ & _).
    destruct (sextets_lt _ _ Hb H0) as (_ & _ & L2 & _).
    cbn [Base64.b64encode Py.ascii_only].
    rewrite (b2a_ascii _ L0), (b2a_ascii _ L1), (b2a_ascii _ L2). reflexivity.
  - pose proof (to_N_lt a) as Ha. pose proof (to_N_lt b) as Hb.
    pose proof (to_N_lt c) as Hc.
    destruct (sextets_lt _ _ Ha Hb) as (L0 & L1 & _ & _).
    destruct (sextets_lt _ _ Hb Hc) as (_ & _ & L2 & _).
    destruct (sextets_lt _ _ Hc Hc) as (_ & _ & _ & L3).
    cbn [Base64.b64encode Py.ascii_only].
    rewrite (b2a_ascii _ L0), (b2a_ascii _ L1), (b2a_ascii _ L2),
      (b2a_ascii _ L3), IH. reflexivity.
Qed.

(** [base64.b64decode] gives back the bytes [base64.b64encode] was given. *)
Lemma b64decode_b64encode (s : list byte) :
  Py.b64decode (Py.JStr (Base64.b64encode s)) = inr s.
Proof.
  unfold Py.b64decode.
  now rewrite ascii_only_b64encode, a2b_base64_b64encode.
Qed.

Lemma append_cons c (a b : string) : String c a +:+ b = String c (a +:+ b).
Proof. reflexivity. Qed.

(** [str_contains] is the substring test. *)
Lemma prefix_spec needle hay :
  String.prefix needle hay = true <-> exists rest, hay = needle +:+ rest.
Proof.
  revert hay. induction needle as [|c needle IH]; intros hay.
  - cbn. destruct hay; split; eauto.
  - destruct hay as [|d hay]; cbn.
    + split; [discriminate|]. intros [rest H]. discriminate.
    + destruct (Ascii.ascii_dec c d) as [->|Hne].
      * rewrite IH. split; intros [rest H]; exists rest;
          rewrite ?append_cons in *; congruence.
      * split; [discriminate|]. intros [rest H].
        rewrite append_cons in H. congruence.
Qed.

Lemma str_contains_spec needle hay :
  Py.str_contains needle hay = true <->
  exists before rest, hay = before +:+ needle +:+ rest.
Proof.
  induction hay as [|d hay IH]; cbn [Py.str_contains];
    rewrite orb_true_iff, prefix_spec.
  - split.
    + intros [[rest H]|H]; [|discriminate]. exists EmptyString, rest. exact H.
    + intros (before & rest & H). left.
      destruct before; [exists rest; exact H|discriminate].
  - rewrite IH. split.
    + intros [[rest H]|(before & rest & H)].
      * exists EmptyString, rest. exact H.
      * exists (String d before), rest. rewrite append_cons. now rewrite H.
    + intros (before & rest & H). destruct before as [|c before].
      * left. exists rest. exact H.
      * right. exists before, rest. rewrite append_cons in H. congruence.
Qed.

(** ** The world and the shared code *)

Section World.
Import Py Sys Common Observe.

Lemma after_after w es es' : after (after w es) es' = after w (es ++ es').
Proof. unfold after. cbn. now rewrite <- app_assoc. Qed.

Lemma after_nil w : after w [] = w.
Proof. destruct w. unfold after. cbn. now rewrite app_nil_r. Qed.

Lemma requests_app t t' : requests (t ++ t') = requests t ++ requests t'.
Proof.
  induction t as [|[] t IH]; cbn; rewrite ?IH; reflexivity.
Qed.

Lemma writes_app t t' : writes (t ++ t') = writes t ++ writes t'.
Proof.
  induction t as [|[] t IH]; cbn; rewrite ?IH; reflexivity.
Qed.

(** No operation on a JSON value raises [HTTPError]. *)
Lemma plain_bind {A B} (r : result A) (k : A -> result B) :
  plain r -> (forall a, plain (k a)) -> plain (Py.bind r k).
Proof. destruct r as [e|a]; cbn; auto. Qed.

Lemma plain_contains key v : plain (contains key v).
Proof. destruct v; exact I. Qed.

Lemma plain_subscript v key : plain (subscript v key).
Proof. destruct v; try exact I. cbn. destruct (lookup key fields); exact I. Qed.

Lemma plain_get v key d : plain (get v key d).
Proof. destruct v; try exact I. cbn. destruct (lookup key fields); exact I. Qed.

Lemma plain_iter v : plain (iter v).
Proof. destruct v; exact I. Qed.

Lemma plain_scan_parts parts : plain (scan_parts parts).
Proof.
  induction parts as [|part rest IH]; [exact I|].
  cbn [scan_parts]. apply plain_bind; [apply plain_contains|].
  intros [|]; [|exact IH].
  repeat (apply plain_bind; [apply plain_subscript|intros ?]). exact I.
Qed.

Lemma plain_scan_candidates cs : plain (scan_candidates cs).
Proof.
  induction cs as [|c rest IH]; [exact I|].
  cbn [scan_candidates].
  do 2 (apply plain_bind; [apply plain_get|intros ?]).
  apply plain_bind; [apply plain_iter|intros ?].
  apply plain_bind; [apply plain_scan_parts|intros [?|]]; [exact I|exact IH].
Qed.

Lemma plain_extract_image result : plain (extract_image result).
Proof.
  unfold extract_image.
  apply plain_bind; [apply plain_contains|intros [|]].
  - apply plain_bind; [apply plain_subscript|intros ?].
    apply plain_bind; [apply plain_get|intros ?]. exact I.
  - apply plain_bind; [apply plain_get|intros ?].
    apply plain_bind; [apply plain_iter|intros ?].
    apply plain_bind; [apply plain_scan_candidates|intros [?|]]; exact I.
Qed.

(** [call_api] sends one request, and returns or raises according to the
    outcome alone. *)
Lemma call_api_eq env req w :
  call_api env req w =
  (api_result (remote env (length (requests (trace w))) req),
   after w [Urlopen req]).
Proof.
  unfold call_api, try_except, mbind, urlopen, lift, api_result.
  destruct (remote env _ req) as [result| |code [error_body|]|reason];
    try reflexivity.
  pose proof (plain_extract_image result) as Hp.
  destruct (extract_image result) as [e|img]; [|reflexivity].
  destruct e; try reflexivity. destruct Hp.
Qed.

(** [save_image], case by case. *)
Lemma save_image_eq env name image_data w :
  save_image env name image_data w =
  match extension (mimeType image_data) with
  | inl e => (inl e, w)
  | inr ext =>
      let filename := image_path name ext in
      match b64decode (data image_data) with
      | inl e => (inl e, w)
      | inr image_bytes =>
          if write_fails env filename then (inl (OSError filename), w)
          else (inr filename, written w filename image_bytes)
      end
  end.
Proof.
  unfold save_image, mbind, lift, write_bytes, print, log, ret, after,
    written, image_path.
  destruct (extension (mimeType image_data)) as [e|ext]; [reflexivity|].
  cbn zeta.
  destruct (b64decode (data image_data)) as [e|bytes]; [reflexivity|].
  destruct (write_fails env _); [reflexivity|].
  cbn. now rewrite <- app_assoc.
Qed.

End World.

Section SaveImage.
Import Py Sys Common Observe.

Lemma save_image_requests env name image_data w :
  requests (trace (save_image env name image_data w).2) = requests (trace w).
Proof.
  rewrite save_image_eq.
  destruct (extension _) as [e|ext]; [reflexivity|]. cbn zeta.
  destruct (b64decode _) as [e|bytes]; [reflexivity|].
  destruct (write_fails env _); [reflexivity|].
  unfold written. cbn. rewrite requests_app. cbn. now rewrite app_nil_r.
Qed.

(** A failed [save_image] leaves the world as it was. *)
Lemma save_image_raises env name image_data w e w' :
  save_image env name image_data w = (inl e, w') -> w' = w.
Proof.
  rewrite save_image_eq.
  destruct (extension _) as [e0|ext]; [congruence|]. cbn zeta.
  destruct (b64decode _) as [e0|bytes]; [congruence|].
  destruct (write_fails env _); congruence.
Qed.

End SaveImage.

(** ** The loop of [generate-images.py] *)

Section ImagesLoop.
Import Py Sys Common Observe GenerateImages.

(** One turn of the loop, case by case: it never raises. *)
Lemma images_iteration_eq env img t w :
  iteration env img t w =
  let w1 := after w [Print (Generating (name img));
                     Urlopen (images_request env img)] in
  match api_result (remote env (length (requests (trace w)))
                      (images_request env img)) with
  | inl e => (inr (counted_failed t), after w1 [Print (Failed e)])
  | inr image_data =>
      match save_image env (name img) image_data w1 with
      | (inl e, w2) => (inr (counted_failed t), after w2 [Print (Failed e)])
      | (inr _, w2) => (inr (counted_ok t), after w2 [Sleep 3])
      end
  end.
Proof.
  unfold iteration, attempt, generate_image, try_except, mbind, print,
    sleep, log, ret.
  rewrite call_api_eq. fold (images_request env img).
  rewrite after_after. cbn [trace after].
  rewrite requests_app. cbn [requests]. rewrite app_nil_r.
  cbn [app].
  destruct (api_result _) as [e|image_data]; [reflexivity|].
  destruct (save_image env (name img) image_data _) as [[e|path] w2];
    reflexivity.
Qed.

(** What every turn does, whatever happens: it returns, counts the entry
    once, and has sent exactly one request. *)
Lemma images_iteration_step env img t w :
  exists t' w',
    iteration env img t w = (inr t', w') /\
    successful t' + failed t' = S (successful t + failed t) /\
    requests (trace w') = requests (trace w) ++ [images_request env img].
Proof.
  rewrite images_iteration_eq. cbn zeta.
  set (w1 := after w _).
  assert (Hw1 : requests (trace w1) =
                requests (trace w) ++ [images_request env img]).
  { unfold w1. cbn. rewrite requests_app. reflexivity. }
  clearbody w1.
  destruct (api_result _) as [e|image_data].
  - eexists _, _. split; [reflexivity|]. split; [cbn; lia|].
    cbn [trace after]. rewrite requests_app, Hw1. cbn. now rewrite app_nil_r.
  - pose proof (save_image_requests env (name img) image_data w1) as Hs.
    destruct (save_image env (name img) image_data w1) as [[e|path] w2];
      cbn [snd] in Hs; eexists _, _; (split; [reflexivity|]);
      (split; [cbn; lia|]);
      cbn [trace after]; rewrite requests_app, Hs, Hw1; cbn;
      now rewrite app_nil_r.
Qed.

Lemma images_for_each_total env specs :
  forall t w, exists t' w',
    for_each env specs t w = (inr t', w') /\
    successful t' + failed t' = successful t + failed t + length specs /\
    requests (trace w') =
      requests (trace w) ++ map (images_request env) specs.
Proof.
  induction specs as [|img rest IH]; intros t w.
  - exists t, w. cbn. rewrite app_nil_r. repeat split; lia.
  - destruct (images_iteration_step env img t w) as (t1 & w1 & E1 & S1 & R1).
    destruct (IH t1 w1) as (t2 & w2 & E2 & S2 & R2).
    exists t2, w2. cbn [for_each]. unfold mbind at 1. rewrite E1.
    split; [exact E2|]. split; [cbn [length]; lia|].
    rewrite R2, R1, <- app_assoc. reflexivity.
Qed.

End ImagesLoop.

(** ** The loop of [generate-process-images.py] *)

Section ProcessLoop.
Import Py Sys Common Observe GenerateProcessImages.

(** One turn of the loop, case by case: it never raises. *)
Lemma process_iteration_eq env i step st w :
  iteration env i step st w =
  let req := process_request env step (previous_image st) in
  let w1 := after w [Print (GeneratingStep (name step) (i + 1)); Urlopen req] in
  match api_result (remote env (length (requests (trace w))) req) with
  | inl e => (inr (chained_failed st), after w1 [Print (Failed e)])
  | inr image_data =>
      match save_image env (name step) image_data w1 with
      | (inl e, w2) => (inr (chained_failed st), after w2 [Print (Failed e)])
      | (inr _, w2) => (inr (chained_ok st image_data), after w2 [Sleep 3])
      end
  end.
Proof.
  unfold iteration, attempt, generate_image, try_except, mbind, print,
    sleep, log, ret.
  rewrite call_api_eq. fold (process_request env step (previous_image st)).
  rewrite after_after. cbn [trace after].
  rewrite requests_app. cbn [requests]. rewrite app_nil_r.
  cbn [app].
  destruct (api_result _) as [e|image_data]; [reflexivity|].
  destruct (save_image env (name step) image_data _) as [[e|path] w2];
    reflexivity.
Qed.

(** The same turn, read through [step_outcome]. *)
Lemma step_outcome_eq env i step st w :
  step_outcome env i step st w =
  let req := process_request env step (previous_image st) in
  let w1 := after w [Print (GeneratingStep (name step) (i + 1)); Urlopen req] in
  match api_result (remote env (length (requests (trace w))) req) with
  | inl e => (inl e, w1)
  | inr image_data =>
      match save_image env (name step) image_data w1 with
      | (inl e, w2) => (inl e, w2)
      | (inr _, w2) => (inr image_data, w2)
      end
  end.
Proof.
  unfold step_outcome, generate_image, mbind, print, log, ret.
  rewrite call_api_eq. fold (process_request env step (previous_image st)).
  rewrite after_after. cbn [trace after].
  rewrite requests_app. cbn [requests]. rewrite app_nil_r.
  cbn [app].
  destruct (api_result _) as [e|image_data]; [reflexivity|].
  destruct (save_image env (name step) image_data _) as [[e|path] w2];
    reflexivity.
Qed.

(** A turn is its [step_outcome] followed by the end of the [try] block
    or by the [except] clause. *)
Lemma process_iteration_outcome env i step st w :
  iteration env i step st w =
  match step_outcome env i step st w with
  | (inr image_data, w2) => (inr (chained_ok st image_data), after w2 [Sleep 3])
  | (inl e, w2) => (inr (chained_failed st), after w2 [Print (Failed e)])
  end.
Proof.
  rewrite process_iteration_eq, step_outcome_eq. cbn zeta.
  destruct (api_result _) as [e|image_data]; [reflexivity|].
  destruct (save_image env (name step) image_data _) as [[e|path] w2];
    reflexivity.
Qed.

(** What every turn does, whatever happens: it returns, counts the step
    once, has sent one request with the context it was given, and leaves
    as context the image it saved, or nothing. *)
Lemma process_iteration_step env i step st w :
  exists st' w',
    iteration env i step st w = (inr st', w') /\
    successful (counts st') + failed (counts st')
      = S (successful (counts st) + failed (counts st)) /\
    requests (trace w') =
      requests (trace w) ++ [process_request env step (previous_image st)] /\
    previous_image st' = handed_on (step_outcome env i step st w).
Proof.
  rewrite process_iteration_eq, step_outcome_eq. cbn zeta.
  set (req := process_request env step (previous_image st)).
  set (w1 := after w _).
  assert (Hw1 : requests (trace w1) = requests (trace w) ++ [req]).
  { unfold w1. cbn [trace after]. rewrite requests_app. reflexivity. }
  clearbody w1.
  destruct (api_result _) as [e|image_data].
  - eexists _, _. split; [reflexivity|]. split; [cbn; lia|].
    split; [|reflexivity].
    cbn [trace after]. rewrite requests_app, Hw1. cbn. now rewrite app_nil_r.
  - pose proof (save_image_requests env (name step) image_data w1) as Hs.
    destruct (save_image env (name step) image_data w1) as [[e|path] w2];
      cbn [snd] in Hs; eexists _, _; (split; [reflexivity|]);
      (split; [cbn; lia|]); (split; [|reflexivity]);
      cbn [trace after]; rewrite requests_app, Hs, Hw1; cbn;
      now rewrite app_nil_r.
Qed.

(** The whole loop returns; its requests are one per step, the first of
    them with the context the loop was entered with. *)
Lemma process_for_each_total env steps :
  forall i st w, exists st' w' reqs,
    for_each env i steps st w = (inr st', w') /\
    successful (counts st') + failed (counts st')
      = successful (counts st) + failed (counts st) + length steps /\
    requests (trace w') = requests (trace w) ++ reqs /\
    length reqs = length steps /\
    head reqs = (fun step => process_request env step (previous_image st))
                  <$> head steps.
Proof.
  induction steps as [|step rest IH]; intros i st w.
  - exists st, w, []. cbn. rewrite app_nil_r. repeat split; lia.
  - destruct (process_iteration_step env i step st w)
      as (st1 & w1 & E1 & S1 & R1 & _).
    destruct (IH (S i) st1 w1) as (st2 & w2 & reqs & E2 & S2 & R2 & L2 & _).
    exists st2, w2, (process_request env step (previous_image st) :: reqs).
    cbn [for_each]. unfold mbind at 1. rewrite E1.
    split; [exact E2|]. split; [cbn [length]; lia|].
    split; [rewrite R2, R1, <- app_assoc; reflexivity|].
    split; [cbn [length]; lia|reflexivity].
Qed.

Lemma process_for_each_app env l1 l2 :
  forall i st w,
    for_each env i (l1 ++ l2) st w =
    match for_each env i l1 st w with
    | (inr st1, w1) => for_each env (i + length l1) l2 st1 w1
    | (inl e, w1) => (inl e, w1)
    end.
Proof.
  induction l1 as [|step rest IH]; intros i st w.
  - cbn. now rewrite Nat.add_0_r.
  - cbn [app for_each length]. unfold mbind.
    destruct (iteration env i step st w) as [[e|st1] w1]; [reflexivity|].
    rewrite IH. now replace (S i + length rest) with (i + S (length rest)) by lia.
Qed.

End ProcessLoop.

(** ** The scanning loops against the schema *)

Section Scan.
Import Py Sys Common Observe Schema.

Lemma contains_obj key fields :
  contains key (JObj fields) = inr (bool_decide (is_Some (lookup key fields))).
Proof. reflexivity. Qed.

Lemma lookup_is_Some_true key (fields : list (string * json)) :
  bool_decide (is_Some (lookup key fields)) = true ->
  exists v, lookup key fields = Some v.
Proof. intros H. apply bool_decide_eq_true in H. exact H. Qed.

Lemma lookup_is_Some_false key (fields : list (string * json)) :
  bool_decide (is_Some (lookup key fields)) = false ->
  lookup key fields = None.
Proof.
  intros H. apply bool_decide_eq_false in H.
  destruct (lookup key fields); [|reflexivity].
  exfalso. apply H. eauto.
Qed.

(** On well-shaped parts, the inner loop finds the first inline image. *)
Lemma scan_parts_first parts :
  forallb part_ok parts = true ->
  scan_parts parts = inr (first_image parts).
Proof.
  induction parts as [|part rest IH]; [reflexivity|].
  cbn [forallb]. intros [Hp Hrest]%andb_prop.
  unfold first_image. cbn [scan_parts find].
  destruct part as [| | | | | |fields]; try discriminate Hp.
  rewrite contains_obj. cbn [Py.bind has_inline].
  unfold part_ok in Hp. cbn [has_inline] in Hp.
  destruct (bool_decide (is_Some (lookup "inlineData" fields))) eqn:Hin.
  - cbn [implb] in Hp. apply bool_decide_eq_true in Hp as [img Himg].
    rewrite Himg. unfold inline_image in Himg. cbn [subscript].
    destruct (lookup "inlineData" fields) as [[| | | | | |inline]|];
      try discriminate Himg.
    cbn [Py.bind subscript].
    destruct (lookup "mimeType" inline) as [m|]; [|discriminate Himg].
    destruct (lookup "data" inline) as [d|]; [|discriminate Himg].
    cbn [Py.bind]. congruence.
  - rewrite (IH Hrest). reflexivity.
Qed.

Lemma first_image_app parts more :
  forallb part_ok parts = true ->
  first_image (parts ++ more) =
  match first_image parts with
  | Some img => Some img
  | None => first_image more
  end.
Proof.
  induction parts as [|part rest IH]; [reflexivity|].
  cbn [forallb]. intros [Hp Hrest]%andb_prop.
  unfold first_image in *. cbn [app find].
  destruct (has_inline part) eqn:Hin.
  - destruct part; try discriminate Hp. unfold part_ok in Hp.
    rewrite Hin in Hp. cbn [implb] in Hp.
    apply bool_decide_eq_true in Hp as [img Himg]. now rewrite Himg.
  - apply IH, Hrest.
Qed.

(** The lookups of the outer loop on a well-shaped candidate. *)
Lemma candidate_parts_iter candidate parts :
  candidate_parts candidate = Some parts ->
  (content <- get candidate "content" (JObj []) ;;
   ps <- get content "parts" (JArr []) ;;
   iter ps) = inr parts.
Proof.
  unfold candidate_parts.
  destruct candidate as [| | | | | |fields]; try discriminate.
  cbn [get]. destruct (lookup "content" fields) as [[| | | | | |content]|];
    try discriminate; cbn [Py.bind get lookup].
  - destruct (lookup "parts" content) as [[| | | | |items|]|];
      try discriminate; cbn [Py.bind iter]; congruence.
  - cbn. congruence.
Qed.

Lemma scan_candidates_first candidates :
  forall parts,
    gather candidates = Some parts ->
    forallb part_ok parts = true ->
    scan_candidates candidates = inr (first_image parts).
Proof.
  induction candidates as [|candidate rest IH]; intros parts Hg Hok.
  - cbn in Hg. injection Hg as <-. reflexivity.
  - cbn [gather] in Hg.
    destruct (candidate_parts candidate) as [ps|] eqn:Hc; [|discriminate].
    destruct (gather rest) as [more|] eqn:Hr; [|discriminate].
    injection Hg as <-.
    rewrite forallb_app in Hok. apply andb_prop in Hok as [Hps Hmore].
    pose proof (candidate_parts_iter _ _ Hc) as Hiter.
    cbn [scan_candidates].
    destruct (get candidate "content" (JObj [])) as [e|content];
      [discriminate Hiter|]. cbn [Py.bind] in Hiter |- *.
    destruct (get content "parts" (JArr [])) as [e|ps'];
      [discriminate Hiter|]. cbn [Py.bind] in Hiter |- *.
    rewrite Hiter. cbn [Py.bind].
    rewrite (scan_parts_first _ Hps). cbn [Py.bind].
    rewrite (first_image_app _ _ Hps).
    destruct (first_image ps); [reflexivity|].
    apply IH; [reflexivity|exact Hmore].
Qed.

(** Without an [error] key, [extract_image] returns the first inline image
    of a well-shaped answer, and raises when there is none. *)
Lemma extract_image_first result parts :
  all_parts result = Some parts ->
  forallb part_ok parts = true ->
  contains "error" result = inr false ->
  extract_image result =
  match first_image parts with
  | Some img => inr img
  | None => inl (Exception (JStr "No image in response"))
  end.
Proof.
  intros Hall Hok Herr. unfold extract_image. rewrite Herr. cbn [Py.bind].
  unfold all_parts in Hall.
  destruct result as [| | | | | |fields]; try discriminate Hall.
  cbn [get].
  destruct (lookup "candidates" fields) as [[| | | | |candidates|]|];
    try discriminate Hall; cbn [Py.bind iter].
  - rewrite (scan_candidates_first _ _ Hall Hok). reflexivity.
  - injection Hall as <-. reflexivity.
Qed.

(** With an [error] key, [extract_image] raises before it looks for an
    image. *)
Lemma extract_image_error fields error :
  lookup "error" fields = Some error ->
  extract_image (JObj fields) = inl (error_failure error).
Proof.
  intros H. unfold extract_image. rewrite contains_obj, H.
  cbn [Py.bind subscript]. rewrite bool_decide_eq_true_2 by eauto.
  rewrite H. cbn [Py.bind]. unfold error_failure.
  destruct error as [| | | | | |ef]; try reflexivity.
  cbn [get]. now destruct (lookup "message" ef).
Qed.

End Scan.

(** ** The loops of [generate-hero.py] *)

Section HeroLoop.
Import Py Sys Common Observe Schema GenerateHero.

Lemma save_first_part_none env parts w :
  forallb part_ok parts = true ->
  existsb has_inline parts = false ->
  save_first_part env parts w = (inr false, w).
Proof.
  induction parts as [|part rest IH]; [reflexivity|].
  cbn [forallb existsb].
  intros [Hp Hrest]%andb_prop [Hin Hnone]%orb_false_elim.
  destruct part as [| | | | | |fields]; try discriminate Hp.
  cbn [save_first_part]. unfold mbind at 1, lift at 1.
  rewrite contains_obj. cbn [has_inline] in Hin. rewrite Hin.
  apply IH; assumption.
Qed.

Lemma save_first_candidate_none env candidates :
  forall parts w,
    gather candidates = Some parts ->
    forallb part_ok parts = true ->
    existsb has_inline parts = false ->
    save_first_candidate env candidates w = (inr false, w).
Proof.
  induction candidates as [|candidate rest IH]; intros parts w Hg Hok Hnone.
  - reflexivity.
  - cbn [gather] in Hg.
    destruct (candidate_parts candidate) as [ps|] eqn:Hc; [|discriminate].
    destruct (gather rest) as [more|] eqn:Hr; [|discriminate].
    injection Hg as <-.
    rewrite forallb_app in Hok. apply andb_prop in Hok as [Hps Hmore].
    rewrite existsb_app in Hnone.
    apply orb_false_elim in Hnone as [Nps Nmore].
    cbn [save_first_candidate]. unfold mbind at 1, lift at 1.
    rewrite (candidate_parts_iter _ _ Hc).
    unfold mbind at 1. rewrite (save_first_part_none env ps w Hps Nps).
    apply (IH more w eq_refl Hmore Nmore).
Qed.

End HeroLoop.

(** ** A batch in which every call succeeds *)

Section AllSucceed.
Import Py Sys Common Observe GenerateImages.

Lemma string_length_app (a b : string) :
  String.length (a +:+ b) = String.length a + String.length b.
Proof.
  induction a as [|c a IH]; [reflexivity|].
  rewrite append_cons. cbn [String.length]. now rewrite IH.
Qed.

(** Two strings with suffixes of the same length are equal only if what
    comes before the suffixes is equal. *)
Lemma append_same_length_suffix (a b s t : string) :
  String.length s = String.length t -> a +:+ s = b +:+ t -> a = b.
Proof.
  intros Hlen. revert b.
  induction a as [|c a IH]; intros [|d b] H.
  - reflexivity.
  - exfalso. apply (f_equal String.length) in H.
    rewrite !string_length_app in H. cbn [String.length] in H. lia.
  - exfalso. apply (f_equal String.length) in H.
    rewrite !string_length_app in H. cbn [String.length] in H. lia.
  - rewrite !append_cons in H. injection H as -> H. f_equal. now apply IH.
Qed.

Lemma image_path_inj n1 e1 n2 e2 :
  known_extension e1 -> known_extension e2 ->
  image_path n1 e1 = image_path n2 e2 -> n1 = n2.
Proof.
  unfold image_path, joinpath. intros H1 H2 H.
  apply String.app_inj in H. apply String.app_inj in H.
  apply (append_same_length_suffix n1 n2 ("." +:+ e1) ("." +:+ e2)); [|exact H].
  destruct H1 as [-> | ->], H2 as [-> | ->]; reflexivity.
Qed.

Lemma extension_known mime ext : extension mime = inr ext -> known_extension ext.
Proof.
  unfold extension. destruct (contains "png" mime) as [e|[|]]; cbn;
    intros H; inversion H; [left|right]; reflexivity.
Qed.

Lemma images_iteration_ok env img t w :
  succeeds env img ->
  exists w' f,
    iteration env img t w = (inr (counted_ok t), w') /\
    writes (trace w') = writes (trace w) ++ [f] /\
    saved_for img f /\
    files w' = store (files w) f.
Proof.
  intros H. destruct (H w) as (image_data & w1 & Hgen & Hsave).
  unfold generate_image in Hgen. rewrite call_api_eq in Hgen.
  fold (images_request env img) in Hgen.
  rewrite images_iteration_eq. cbn zeta.
  injection Hgen as Hgen _. rewrite Hgen.
  set (w2 := after w _).
  destruct (Hsave w2) as (path & w3 & Hs). rewrite Hs.
  rewrite save_image_eq in Hs.
  destruct (extension (mimeType image_data)) as [e|ext] eqn:Hext;
    [discriminate Hs|]. cbn zeta in Hs.
  destruct (b64decode (data image_data)) as [e|image_bytes];
    [discriminate Hs|].
  destruct (write_fails env _); [discriminate Hs|].
  injection Hs as <- <-.
  exists (after (written w2 (image_path (name img) ext) image_bytes) [Sleep 3]),
    (image_path (name img) ext, image_bytes).
  split; [reflexivity|]. split; [|split].
  - unfold written, w2. cbn [trace after].
    rewrite !writes_app. cbn. now rewrite !app_nil_r.
  - unfold saved_for. cbn [fst].
    destruct (extension_known _ _ Hext) as [-> | ->]; [left|right]; reflexivity.
  - reflexivity.
Qed.

Lemma images_for_each_ok env specs :
  (forall spec, spec ∈ specs -> succeeds env spec) ->
  forall t w, exists w' saved,
    for_each env specs t w =
      (inr {| successful := successful t + length specs; failed := failed t |},
       w') /\
    writes (trace w') = writes (trace w) ++ saved /\
    Forall2 saved_for specs saved /\
    files w' = foldl store (files w) saved.
Proof.
  induction specs as [|img rest IH]; intros H t w.
  - exists w, []. cbn. rewrite Nat.add_0_r, app_nil_r.
    destruct t. repeat split. constructor.
  - destruct (images_iteration_ok env img t w) as (w1 & f & E1 & W1 & P1 & F1).
    { apply H. left. }
    destruct (IH (fun spec Hin => H spec (list_elem_of_further _ _ _ Hin))
                (counted_ok t) w1)
      as (w2 & saved & E2 & W2 & P2 & F2).
    exists w2, (f :: saved). cbn [for_each]. unfold mbind at 1. rewrite E1.
    split; [|split; [|split]].
    + rewrite E2. cbn. do 3 f_equal. lia.
    + rewrite W2, W1, <- app_assoc. reflexivity.
    + constructor; assumption.
    + rewrite F2, F1. reflexivity.
Qed.

(** With distinct names, the saved files have distinct paths. *)
Lemma saved_paths_distinct specs saved :
  Forall2 saved_for specs saved ->
  NoDup (map name specs) -> NoDup saved.*1.
Proof.
  induction 1 as [|spec f specs saved Hf HF IH]; cbn; intros Hnd.
  - constructor.
  - apply NoDup_cons in Hnd as [Hnotin Hnd].
    apply NoDup_cons. split; [|apply IH, Hnd].
    intros Hin. apply Hnotin. clear IH Hnd Hnotin.
    induction HF as [|spec' f' specs saved Hf' HF IH]; cbn in *.
    + apply elem_of_nil in Hin. destruct Hin.
    + apply elem_of_cons in Hin as [Heq|Hin].
      * apply elem_of_cons. left.
        assert (exists e e', known_extension e /\ known_extension e' /\
                  image_path (name spec) e = image_path (name spec') e')
          as (e & e' & He & He' & Hp).
        { unfold saved_for, known_extension in *.
          destruct Hf as [Hf|Hf], Hf' as [Hf'|Hf'];
            rewrite Hf, Hf' in Heq; eauto 10. }
        now apply (image_path_inj _ e _ e').
      * apply elem_of_cons. right. now apply IH.
Qed.

Lemma foldl_store_notin saved :
  forall (m : gmap string (list byte)) k,
    k ∉ saved.*1 -> foldl store m saved !! k = m !! k.
Proof.
  induction saved as [|f saved IH]; intros m k Hk; [reflexivity|].
  cbn in Hk |- *. apply not_elem_of_cons in Hk as [Hne Hk].
  rewrite (IH _ _ Hk). unfold store. now apply lookup_insert_ne.
Qed.

Lemma foldl_store_lookup saved :
  forall (m : gmap string (list byte)) f,
    NoDup saved.*1 -> f ∈ saved -> foldl store m saved !! f.1 = Some f.2.
Proof.
  induction saved as [|g saved IH]; intros m f Hnd Hin.
  - apply elem_of_nil in Hin. destruct Hin.
  - cbn in Hnd |- *. apply NoDup_cons in Hnd as [Hnotin Hnd].
    apply elem_of_cons in Hin as [->|Hin].
    + rewrite (foldl_store_notin _ _ _ Hnotin). unfold store.
      apply lookup_insert_eq.
    + now apply IH.
Qed.

End AllSucceed.

(** ** Properties of the scripts *)

Section Scripts.
Import Py Sys Common Observe Schema Fixtures.

(** C1.  When every entry of the list can be generated and saved, the
    loop of [generate-images.py] returns the counters [N] and [0] for a
    list of [N] entries; it writes [N] files, one for each entry in order,
    each at [images/<name>.png] or [images/<name>.jpg]; the files at the
    end are those at the start with the written ones stored; with distinct
    names the [N] paths are distinct and each holds what was written to
    it.  [main] then prints [N] as the number of successes and [0] as the
    number of failures. *)
Theorem C1_all_calls_succeed env specs :
  (forall spec, spec ∈ specs -> succeeds env spec) ->
  (forall w, exists w' saved,
      GenerateImages.run_batch env specs w =
        (inr {| successful := length specs; failed := 0 |}, w') /\
      writes (trace w') = writes (trace w) ++ saved /\
      length saved = length specs /\
      Forall2 saved_for specs saved /\
      files w' = foldl store (files w) saved /\
      (NoDup (map name specs) ->
       NoDup saved.*1 /\
       forall f, f ∈ saved -> files w' !! f.1 = Some f.2)) /\
  (forall w, exists wm before,
      GenerateImages.main_with env specs w = (inr tt, wm) /\
      trace wm =
        before ++ [Print (Text (nl +:+ "Image generation complete!"));
                   Print (Successful (length specs));
                   Print (FailedCount 0);
                   Print (SavedTo images_dir)]).
Proof.
  intros H. split; intros w.
  - destruct (images_for_each_ok env specs H
                {| successful := 0; failed := 0 |} w)
      as (w' & saved & E & W & P & F).
    exists w', saved. cbn [successful failed Nat.add] in E.
    split; [exact E|]. split; [exact W|].
    split; [symmetry; apply (Forall2_length _ _ _ P)|].
    split; [exact P|]. split; [exact F|].
    intros Hnd. pose proof (saved_paths_distinct _ _ P Hnd) as Hpaths.
    split; [exact Hpaths|]. intros f Hf. rewrite F.
    now apply foldl_store_lookup.
  - set (w0 := after w [Print (Text ("Starting IWT image generation..." +:+ nl));
                        Print (GeneratingCount (length specs))]).
    destruct (images_for_each_ok env specs H
                {| successful := 0; failed := 0 |} w0)
      as (wb & saved & Eb & _).
    cbn [successful failed Nat.add] in Eb.
    eexists _, (trace wb).
    unfold GenerateImages.main_with.
    unfold mbind at 1, print at 1, log at 1.
    unfold mbind at 1, print at 1, log at 1. rewrite after_after.
    cbn [app]. fold w0. unfold mbind at 1.
    unfold GenerateImages.run_batch. rewrite Eb.
    unfold mbind, print, log. cbn [successful failed].
    rewrite !after_after. cbn [app]. split; reflexivity.
Qed.

(** With [env_ok], every entry can be generated and saved. *)
Lemma env_ok_succeeds spec : succeeds env_ok spec.
Proof.
  intros w0. exists png_image, (after w0 [Urlopen (images_request env_ok spec)]).
  split.
  - unfold GenerateImages.generate_image. now rewrite call_api_eq.
  - intros w2. eexists _, _. rewrite save_image_eq. reflexivity.
Qed.

Lemma C1_all_calls_succeed_witness :
  exists w' saved,
    GenerateImages.run_batch env_ok GenerateImages.image_prompts empty_world =
      (inr {| successful := 10; failed := 0 |}, w') /\
    writes (trace w') = saved /\
    length saved = 10 /\
    NoDup saved.*1.
Proof.
  destruct (C1_all_calls_succeed env_ok GenerateImages.image_prompts
              (fun spec _ => env_ok_succeeds spec)) as [H _].
  destruct (H empty_world) as (w' & saved & E & W & L & _ & _ & D).
  exists w', saved. split; [exact E|]. split; [exact W|]. split; [exact L|].
  apply D. apply (bool_decide_unpack _). vm_compute. exact I.
Defined.

(** On the console of [Sys], which shows every line: whatever the service
    answers and whichever writes are refused, the loop of either batch
    script returns normally, every entry is attempted once (one request
    each), the two counters add up to the number of entries, and a turn
    whose [try] block raises counts the entry as failed and hands over to
    the next turn.  What becomes of this when the console can refuse a
    line is the matter of [Hazard]. *)
Lemma batch_survives_when_every_line_is_shown env specs w :
  (exists t w',
      GenerateImages.run_batch env specs w = (inr t, w') /\
      successful t + failed t = length specs /\
      length (requests (trace w')) =
        length (requests (trace w)) + length specs) /\
  (exists st w',
      GenerateProcessImages.run_batch env specs w = (inr st, w') /\
      successful (GenerateProcessImages.counts st)
        + failed (GenerateProcessImages.counts st) = length specs /\
      length (requests (trace w')) =
        length (requests (trace w)) + length specs) /\
  (forall img t w0,
      GenerateImages.iteration env img t w0 =
      match GenerateImages.attempt env img t
              (after w0 [Print (Generating (name img))]) with
      | (inr t', w1) => (inr t', w1)
      | (inl e, w1) => (inr (counted_failed t), after w1 [Print (Failed e)])
      end) /\
  (forall i step st w0,
      GenerateProcessImages.iteration env i step st w0 =
      match GenerateProcessImages.attempt env step st
              (after w0 [Print (GeneratingStep (name step) (i + 1))]) with
      | (inr st', w1) => (inr st', w1)
      | (inl e, w1) => (inr (chained_failed st), after w1 [Print (Failed e)])
      end).
Proof.
  split; [|split; [|split]].
  - destruct (images_for_each_total env specs
                {| successful := 0; failed := 0 |} w)
      as (t & w' & E & S & R).
    exists t, w'. split; [exact E|]. split; [exact S|].
    rewrite R, length_app, length_map. reflexivity.
  - destruct (process_for_each_total env specs 0
                GenerateProcessImages.initial w)
      as (st & w' & reqs & E & S & R & L & _).
    exists st, w'. split; [exact E|]. split; [exact S|].
    rewrite R, length_app, L. reflexivity.
  - intros img t w0. unfold GenerateImages.iteration, mbind, try_except,
      print, log.
    destruct (GenerateImages.attempt env img t _) as [[e|t'] w1]; reflexivity.
  - intros i step st w0. unfold GenerateProcessImages.iteration, mbind,
      try_except, print, log.
    destruct (GenerateProcessImages.attempt env step st _) as [[e|st'] w1];
      reflexivity.
Qed.

(** A run of [generate-images.py] on its own list in which the service
    refuses the first request: nine entries are saved and one has failed. *)
Example batch_continues_after_refusal :
  (GenerateImages.run_batch env_first_refused GenerateImages.image_prompts
     empty_world).1 = inr {| successful := 9; failed := 1 |}.
Proof. vm_compute. reflexivity. Qed.

(** C3.  In the chained loop, take two successive steps [k] and [k+1].
    The loop reaches step [k] with some locals [st] in some world [wk];
    the turn of step [k] succeeds or fails as its [step_outcome] does (it
    generates and saves an image, or raises on the way); the request of
    step [k] carries the context held in [st], and the request of step
    [k+1] carries the image step [k] generated and saved, when it did, and
    no image at all when step [k] raised, whatever context [st] held. *)
Theorem C3_chain_follows_last_step env steps k step next w :
  steps !! k = Some step ->
  steps !! S k = Some next ->
  exists st wk final wf,
    GenerateProcessImages.for_each env 0 (take k steps)
      GenerateProcessImages.initial w = (inr st, wk) /\
    GenerateProcessImages.run_batch env steps w = (inr final, wf) /\
    GenerateProcessImages.iteration env k step st wk =
      match step_outcome env k step st wk with
      | (inr image_data, w2) =>
          (inr (chained_ok st image_data), after w2 [Sleep 3])
      | (inl e, w2) => (inr (chained_failed st), after w2 [Print (Failed e)])
      end /\
    requests (trace wf) !! (length (requests (trace w)) + k) =
      Some (process_request env step
              (GenerateProcessImages.previous_image st)) /\
    requests (trace wf) !! (length (requests (trace w)) + S k) =
      Some (process_request env next
              (handed_on (step_outcome env k step st wk))) /\
    process_request env next None =
      build_request env [JObj [("text", JStr (prompt next))]] 90.
Proof.
  intros Hk Hk1.
  pose proof (take_drop_middle _ _ _ Hk) as Hsplit.
  rewrite (drop_S _ _ _ Hk1) in Hsplit.
  assert (Hlen : length (take k steps) = k).
  { rewrite length_take. apply lookup_lt_Some in Hk. lia. }
  destruct (process_for_each_total env (take k steps) 0
              GenerateProcessImages.initial w)
    as (st & wk & pre & E0 & _ & R0 & L0 & _).
  destruct (process_iteration_step env k step st wk)
    as (st1 & w1 & E1 & _ & R1 & P1).
  destruct (process_for_each_total env (next :: drop (S (S k)) steps)
              (S k) st1 w1)
    as (final & wf & post & E2 & _ & R2 & L2 & H2).
  exists st, wk, final, wf.
  assert (Hrun : GenerateProcessImages.run_batch env steps w = (inr final, wf)).
  { unfold GenerateProcessImages.run_batch. rewrite <- Hsplit.
    rewrite process_for_each_app, E0, Hlen. cbn [Nat.add].
    cbn [GenerateProcessImages.for_each]. unfold mbind at 1.
    rewrite E1. exact E2. }
  rewrite Hlen in L0.
  assert (Hreqs : requests (trace wf) =
                  requests (trace w) ++ pre ++
                  process_request env step
                    (GenerateProcessImages.previous_image st) :: post).
  { rewrite R2, R1, R0, <- !app_assoc. reflexivity. }
  split; [exact E0|]. split; [exact Hrun|].
  split; [apply process_iteration_outcome|].
  rewrite Hreqs. split; [|split; [|reflexivity]].
  - rewrite lookup_app_r by lia.
    replace (length (requests (trace w)) + k - length (requests (trace w)))
      with (length pre + 0) by lia.
    rewrite lookup_app_r by lia.
    now replace (length pre + 0 - length pre) with 0 by lia.
  - rewrite lookup_app_r by lia.
    replace (length (requests (trace w)) + S k - length (requests (trace w)))
      with (length pre + 1) by lia.
    rewrite lookup_app_r by lia.
    replace (length pre + 1 - length pre) with 1 by lia.
    destruct post as [|r post]; [cbn in L2; lia|].
    cbn in H2. injection H2 as ->. rewrite P1. reflexivity.
Qed.

Lemma C3_chain_witness :
  exists st wk final wf,
    GenerateProcessImages.for_each env_second_refused 0 (take 1 three_specs)
      GenerateProcessImages.initial empty_world = (inr st, wk) /\
    GenerateProcessImages.run_batch env_second_refused three_specs empty_world
      = (inr final, wf) /\
    GenerateProcessImages.iteration env_second_refused 1
        {| name := "two"; prompt := "second" |} st wk =
      match step_outcome env_second_refused 1
              {| name := "two"; prompt := "second" |} st wk with
      | (inr image_data, w2) =>
          (inr (chained_ok st image_data), after w2 [Sleep 3])
      | (inl e, w2) => (inr (chained_failed st), after w2 [Print (Failed e)])
      end /\
    requests (trace wf) !! (length (requests (trace empty_world)) + 1) =
      Some (process_request env_second_refused
              {| name := "two"; prompt := "second" |}
              (GenerateProcessImages.previous_image st)) /\
    requests (trace wf) !! (length (requests (trace empty_world)) + 2) =
      Some (process_request env_second_refused
              {| name := "three"; prompt := "third" |}
              (handed_on (step_outcome env_second_refused 1
                            {| name := "two"; prompt := "second" |} st wk))) /\
    process_request env_second_refused
      {| name := "three"; prompt := "third" |} None =
      build_request env_second_refused [JObj [("text", JStr "third")]] 90.
Proof.
  apply (C3_chain_follows_last_step env_second_refused three_specs 1
           {| name := "two"; prompt := "second" |}
           {| name := "three"; prompt := "third" |} empty_world);
    reflexivity.
Defined.

(** The same run, evaluated: the second step is sent with the image of
    the first, the service refuses it, and the third step is sent with its
    prompt alone. *)
Example chain_dropped_after_refusal :
  requests (trace (GenerateProcessImages.run_batch env_second_refused
                     three_specs empty_world).2) =
  [process_request env_second_refused {| name := "one"; prompt := "first" |} None;
   process_request env_second_refused {| name := "two"; prompt := "second" |}
     (Some png_image);
   process_request env_second_refused {| name := "three"; prompt := "third" |}
     None].
Proof. vm_compute. reflexivity. Qed.

(** C4 asks for a pause between any two successive requests.  Here the
    service refuses the first request and answers the others: between the
    refused request and the next one neither script sleeps, while the
    later pairs of requests are three seconds apart. *)
Theorem C4_no_pause_after_failed_call :
  pauses (trace (GenerateImages.script env_first_refused empty_world).2) =
    [[]; [3]; [3]; [3]; [3]; [3]; [3]; [3]; [3]]%Z /\
  pauses (trace (GenerateProcessImages.script env_first_refused empty_world).2) =
    [[]; [3]; [3]; [3]; [3]]%Z.
Proof. split; vm_compute; reflexivity. Qed.

(** C5.  With the API key unset, either batch script ends with status 1
    after printing its diagnostic: the trace grows by those lines alone (no
    directory made, no request sent, no file written) and the files are
    what they were. *)
Theorem C5_missing_key_stops_at_once env specs w :
  GEMINI_API_KEY env = None ->
  GenerateImages.script_with env specs w =
    (1%Z,
     after w
       [Print (Text "Error: GEMINI_API_KEY environment variable not set");
        Print (Text "Get your API key from: https://aistudio.google.com/apikey");
        Print (Text ("Then run: export GEMINI_API_KEY=" +:+ dquote
                     +:+ "your-key-here" +:+ dquote))]) /\
  GenerateProcessImages.script_with env specs w =
    (1%Z,
     after w
       [Print (Text "Error: GEMINI_API_KEY environment variable not set")]).
Proof.
  intros Hkey.
  unfold GenerateImages.script_with, GenerateProcessImages.script_with,
    key_missing.
  rewrite Hkey. split; [|reflexivity].
  unfold mbind, print, log. cbn [snd]. now rewrite !after_after.
Qed.

Lemma C5_missing_key_witness :
  GenerateImages.script env_no_key empty_world =
    (1%Z,
     after empty_world
       [Print (Text "Error: GEMINI_API_KEY environment variable not set");
        Print (Text "Get your API key from: https://aistudio.google.com/apikey");
        Print (Text ("Then run: export GEMINI_API_KEY=" +:+ dquote
                     +:+ "your-key-here" +:+ dquote))]) /\
  GenerateProcessImages.script env_no_key empty_world =
    (1%Z,
     after empty_world
       [Print (Text "Error: GEMINI_API_KEY environment variable not set")]).
Proof.
  split.
  - apply (C5_missing_key_stops_at_once env_no_key
             GenerateImages.image_prompts empty_world). reflexivity.
  - apply (C5_missing_key_stops_at_once env_no_key
             GenerateProcessImages.process_steps empty_world). reflexivity.
Defined.

(** C6.  [save_image] names the file after the mime type: [image/png]
    gives [images/<name>.png], [image/jpeg] gives [images/<name>.jpg], and
    so does every mime type in which [png] does not occur.  The bytes
    written are the decoded payload. *)
Theorem C6_extension_follows_mime_type env name payload image_bytes w :
  b64decode payload = inr image_bytes ->
  write_fails env (image_path name "png") = false ->
  write_fails env (image_path name "jpg") = false ->
  save_image env name {| mimeType := JStr "image/png"; data := payload |} w =
    (inr (image_path name "png"),
     written w (image_path name "png") image_bytes) /\
  save_image env name {| mimeType := JStr "image/jpeg"; data := payload |} w =
    (inr (image_path name "jpg"),
     written w (image_path name "jpg") image_bytes) /\
  (forall mime,
      str_contains "png" mime = false ->
      save_image env name {| mimeType := JStr mime; data := payload |} w =
        (inr (image_path name "jpg"),
         written w (image_path name "jpg") image_bytes)) /\
  image_path name "png" = "images/" +:+ name +:+ ".png" /\
  image_path name "jpg" = "images/" +:+ name +:+ ".jpg" /\
  (forall filename,
      files (written w filename image_bytes) !! filename = Some image_bytes).
Proof.
  intros Hdec Hpng Hjpg.
  assert (Hsave : forall mime,
             save_image env name {| mimeType := JStr mime; data := payload |} w =
             let filename :=
               image_path name (if str_contains "png" mime then "png" else "jpg") in
             if write_fails env filename then (inl (OSError filename), w)
             else (inr filename, written w filename image_bytes)).
  { intros mime. rewrite save_image_eq. cbn [mimeType data extension contains Py.bind].
    now rewrite Hdec. }
  split; [|split; [|split; [|split; [|split]]]].
  - rewrite Hsave. cbn zeta.
    change (str_contains "png" "image/png") with true. cbv iota.
    now rewrite Hpng.
  - rewrite Hsave. cbn zeta.
    change (str_contains "png" "image/jpeg") with false. cbv iota.
    now rewrite Hjpg.
  - intros mime Hmime. rewrite Hsave. cbn zeta. rewrite Hmime.
    now rewrite Hjpg.
  - reflexivity.
  - reflexivity.
  - intros filename. unfold written. cbn [files]. apply lookup_insert_eq.
Qed.

Lemma C6_extension_witness :
  save_image env_ok "logo" png_image empty_world =
    (inr "images/logo.png", written empty_world "images/logo.png" hello) /\
  save_image env_ok "logo"
    {| mimeType := JStr "image/jpeg"; data := JStr "aGVsbG8=" |} empty_world =
    (inr "images/logo.jpg", written empty_world "images/logo.jpg" hello).
Proof.
  pose proof (C6_extension_follows_mime_type env_ok "logo" (JStr "aGVsbG8=")
                hello empty_world eq_refl eq_refl eq_refl) as (H1 & H2 & _).
  split; [exact H1|exact H2].
Defined.

(** C7, read for every well-shaped answer: [generate_image] returns the
    first inline image, or raises [No image in response] when there is
    none.  The answer [error_answer] refutes this reading: it carries an
    inline image, and [generate_image] raises the reported error
    instead. *)
Lemma C7_counterexample :
  ~ (forall env prompt w result parts,
        (forall req,
            remote env (length (requests (trace w))) req = Responded result) ->
        all_parts result = Some parts ->
        forallb part_ok parts = true ->
        (GenerateImages.generate_image env prompt w).1 =
        match first_image parts with
        | Some img => inr img
        | None => inl (Exception (JStr "No image in response"))
        end).
Proof.
  intros H.
  specialize (H env_error_answer "a prompt" empty_world error_answer [png_part]
                (fun _ => eq_refl) eq_refl eq_refl).
  vm_compute in H. discriminate H.
Qed.

(** C7, amended.  In the batch scripts, for a well-shaped answer whose
    body has no [error] key: when no part holds inline image data,
    [generate_image] raises [No image in response]; otherwise it returns
    the payload of the first such part, candidates taken in order and the
    parts of each candidate in order. *)
Theorem C7_first_inline_image_or_failure env prompt previous w result parts :
  (forall req,
      remote env (length (requests (trace w))) req = Responded result) ->
  all_parts result = Some parts ->
  forallb part_ok parts = true ->
  contains "error" result = inr false ->
  let outcome :=
    match first_image parts with
    | Some img => inr img
    | None => inl (Exception (JStr "No image in response"))
    end in
  GenerateImages.generate_image env prompt w =
    (outcome,
     after w [Urlopen (build_request env [JObj [("text", JStr prompt)]] 60)]) /\
  GenerateProcessImages.generate_image env prompt previous w =
    (outcome,
     after w [Urlopen (build_request env
                         (GenerateProcessImages.build_parts prompt previous) 90)]).
Proof.
  intros Hremote Hall Hok Herr outcome.
  unfold GenerateImages.generate_image, GenerateProcessImages.generate_image.
  rewrite !call_api_eq, !Hremote. unfold api_result.
  rewrite (extract_image_first _ _ Hall Hok Herr). split; reflexivity.
Qed.

Lemma C7_first_inline_image_witness :
  first_image [text_part; png_part; jpeg_part] = Some png_image /\
  GenerateImages.generate_image env_ok "a prompt" empty_world =
    (inr png_image,
     after empty_world
       [Urlopen (build_request env_ok [JObj [("text", JStr "a prompt")]] 60)]) /\
  GenerateProcessImages.generate_image env_text_only "a prompt" None empty_world =
    (inl (Exception (JStr "No image in response")),
     after empty_world
       [Urlopen (build_request env_text_only
                   (GenerateProcessImages.build_parts "a prompt" None) 90)]).
Proof.
  split; [reflexivity|]. split.
  - apply (C7_first_inline_image_or_failure env_ok "a prompt" None empty_world
             image_answer [text_part; png_part; jpeg_part]
             (fun _ => eq_refl) eq_refl eq_refl eq_refl).
  - apply (C7_first_inline_image_or_failure env_text_only "a prompt" None
             empty_world text_answer [text_part]
             (fun _ => eq_refl) eq_refl eq_refl eq_refl).
Defined.

(** C8.  Whatever the bytes [b], the name and the mime type: when the
    data of the image is the base64 text of [b], [save_image] returns the
    path of a file whose content is exactly [b]. *)
Theorem C8_decode_write_round_trip env name mime (b : list byte) w :
  let filename :=
    image_path name (if str_contains "png" mime then "png" else "jpg") in
  write_fails env filename = false ->
  exists w',
    save_image env name
      {| mimeType := JStr mime; data := JStr (Base64.b64encode b) |} w =
      (inr filename, w') /\
    files w' !! filename = Some b /\
    writes (trace w') = writes (trace w) ++ [(filename, b)].
Proof.
  intros filename Hw. exists (written w filename b).
  split; [|split].
  - rewrite save_image_eq.
    cbn [mimeType data extension contains Py.bind].
    rewrite b64decode_b64encode. cbn zeta. fold filename. now rewrite Hw.
  - unfold written. cbn [files]. apply lookup_insert_eq.
  - unfold written. cbn [trace]. rewrite writes_app. reflexivity.
Qed.

Lemma C8_round_trip_witness :
  exists w',
    save_image env_ok "logo"
      {| mimeType := JStr "image/png"; data := JStr (Base64.b64encode hello) |}
      empty_world = (inr "images/logo.png", w') /\
    files w' !! "images/logo.png" = Some hello /\
    writes (trace w') = writes (trace empty_world) ++ [("images/logo.png", hello)].
Proof.
  apply (C8_decode_write_round_trip env_ok "logo" "image/png" hello empty_world).
  reflexivity.
Defined.

(** C9.  In both batch scripts, when the body of a successful answer has
    an [error] key, [generate_image] raises what the error check raises and
    never reaches the search for an image, whatever else the body holds.
    For an error object with a [message], the exception carries that
    message; without one it carries [Unknown error]; an error that is not
    an object has no [get], and the check raises [AttributeError]. *)
Theorem C9_error_check_comes_first env prompt previous w fields error :
  (forall req,
      remote env (length (requests (trace w))) req = Responded (JObj fields)) ->
  lookup "error" fields = Some error ->
  GenerateImages.generate_image env prompt w =
    (inl (error_failure error),
     after w [Urlopen (build_request env [JObj [("text", JStr prompt)]] 60)]) /\
  GenerateProcessImages.generate_image env prompt previous w =
    (inl (error_failure error),
     after w [Urlopen (build_request env
                         (GenerateProcessImages.build_parts prompt previous) 90)]) /\
  (forall ef message,
      error = JObj ef -> lookup "message" ef = Some message ->
      error_failure error = Exception message) /\
  (forall ef,
      error = JObj ef -> lookup "message" ef = None ->
      error_failure error = Exception (JStr "Unknown error")) /\
  ((forall ef, error <> JObj ef) -> error_failure error = AttributeError).
Proof.
  intros Hremote Herr.
  unfold GenerateImages.generate_image, GenerateProcessImages.generate_image.
  rewrite !call_api_eq, !Hremote. unfold api_result.
  rewrite (extract_image_error _ _ Herr).
  repeat split.
  - intros ef message -> Hm. cbn. now rewrite Hm.
  - intros ef -> Hm. cbn. now rewrite Hm.
  - intros Hno. destruct error as [| | | | | |ef]; try reflexivity.
    now destruct (Hno ef).
Qed.

Lemma C9_error_check_witness :
  has_inline png_part = true /\
  all_parts error_answer = Some [png_part] /\
  GenerateImages.generate_image env_error_answer "a prompt" empty_world =
    (inl (Exception (JStr "Quota exceeded")),
     after empty_world
       [Urlopen (build_request env_error_answer
                   [JObj [("text", JStr "a prompt")]] 60)]) /\
  GenerateProcessImages.generate_image env_error_answer "a prompt"
      (Some png_image) empty_world =
    (inl (Exception (JStr "Quota exceeded")),
     after empty_world
       [Urlopen (build_request env_error_answer
                   (GenerateProcessImages.build_parts "a prompt"
                      (Some png_image)) 90)]).
Proof.
  split; [reflexivity|]. split; [reflexivity|].
  pose proof (C9_error_check_comes_first env_error_answer "a prompt"
                (Some png_image) empty_world _ _
                (fun _ => eq_refl) eq_refl) as (H1 & H2 & _).
  split; [exact H1|exact H2].
Defined.

(** C10.  When the answer to the request of [generate-hero.py] is
    well shaped and none of its parts holds inline image data, the script
    ends with status 0: it made the directory, announced the generation,
    sent the request and printed [No image generated]; it wrote no file
    and raised nothing. *)
Theorem C10_hero_without_image_exits_normally env w result parts :
  remote env (length (requests (trace w))) (hero_request env)
    = Responded result ->
  all_parts result = Some parts ->
  forallb part_ok parts = true ->
  existsb has_inline parts = false ->
  GenerateHero.script env w =
    (0%Z,
     after w [Mkdir images_dir;
              Print (Text "Generating hero background...");
              Urlopen (hero_request env);
              Print (Text "No image generated")]).
Proof.
  intros Hremote Hall Hok Hnone.
  unfold GenerateHero.script, GenerateHero.generate_image.
  fold (hero_request env).
  unfold mbind at 1, mkdir at 1, log at 1.
  unfold mbind at 1, print at 1, log at 1. rewrite after_after.
  unfold mbind at 1, urlopen at 1. cbn [trace after].
  rewrite requests_app. cbn [requests app]. rewrite app_nil_r, Hremote.
  rewrite after_after. cbn [app].
  unfold all_parts in Hall.
  destruct result as [| | | | | |fields]; try discriminate Hall.
  unfold mbind at 1, lift at 1. cbn [get].
  destruct (lookup "candidates" fields) as [[| | | | |candidates|]|];
    try discriminate Hall; cbn [Py.bind iter].
  - unfold mbind at 1.
    rewrite (save_first_candidate_none env candidates parts _ Hall Hok Hnone).
    unfold print, log. now rewrite after_after.
  - unfold mbind at 1. cbn [GenerateHero.save_first_candidate ret].
    unfold print, log. now rewrite after_after.
Qed.

Lemma C10_hero_without_image_witness :
  GenerateHero.script env_text_only empty_world =
    (0%Z,
     after empty_world
       [Mkdir images_dir;
        Print (Text "Generating hero background...");
        Urlopen (hero_request env_text_only);
        Print (Text "No image generated")]) /\
  writes (trace (GenerateHero.script env_text_only empty_world).2) = [] /\
  files (GenerateHero.script env_text_only empty_world).2 = ∅.
Proof.
  pose proof (C10_hero_without_image_exits_normally env_text_only empty_world
                text_answer [text_part] eq_refl eq_refl eq_refl eq_refl) as H.
  split; [exact H|]. rewrite H. split; reflexivity.
Defined.

End Scripts.

(** ** One turn of a loop, outcome by outcome *)

Section Turns.
Import Py Sys Common Observe Schema Fixtures Probe.

(** A successful [save_image] is a write at a path with a known
    extension. *)
Lemma save_image_returns env name image_data w path w' :
  save_image env name image_data w = (inr path, w') ->
  exists ext image_bytes,
    known_extension ext /\
    extension (mimeType image_data) = inr ext /\
    b64decode (data image_data) = inr image_bytes /\
    write_fails env (image_path name ext) = false /\
    path = image_path name ext /\
    w' = written w path image_bytes.
Proof.
  rewrite save_image_eq.
  destruct (extension (mimeType image_data)) as [e|ext] eqn:Hext;
    [discriminate|]. cbn zeta.
  destruct (b64decode (data image_data)) as [e|image_bytes];
    [discriminate|].
  destruct (write_fails env _) eqn:Hw; [discriminate|].
  intros H. injection H as <- <-.
  exists ext, image_bytes.
  split; [exact (extension_known _ _ Hext)|]. repeat split. exact Hw.
Qed.

(** A turn of [generate-images.py] either fails, leaving the files alone,
    or saves one file and sleeps. *)
Lemma images_turn env img t w :
  let w1 := after w [Print (Generating (name img));
                     Urlopen (images_request env img)] in
  (exists e,
      GenerateImages.iteration env img t w =
        (inr (counted_failed t), after w1 [Print (Failed e)])) \/
  (exists ext image_bytes,
      known_extension ext /\
      write_fails env (image_path (name img) ext) = false /\
      GenerateImages.iteration env img t w =
        (inr (counted_ok t),
         after (written w1 (image_path (name img) ext) image_bytes) [Sleep 3])).
Proof.
  intros w1. rewrite images_iteration_eq. cbn zeta. fold w1.
  destruct (api_result _) as [e|image_data]; [left; eauto|].
  destruct (save_image env (name img) image_data w1) as [[e|path] w2] eqn:Hs.
  - left. exists e. now rewrite (save_image_raises _ _ _ _ _ _ Hs).
  - right. apply save_image_returns in Hs
      as (ext & image_bytes & Hk & _ & _ & Hw & -> & ->).
    exists ext, image_bytes. repeat split; assumption.
Qed.

(** The same for the chained loop, with the context it leaves. *)
Lemma process_turn env i step st w :
  let w1 := after w [Print (GeneratingStep (name step) (i + 1));
                     Urlopen (process_request env step
                                (GenerateProcessImages.previous_image st))] in
  (exists e,
      GenerateProcessImages.iteration env i step st w =
        (inr (chained_failed st), after w1 [Print (Failed e)])) \/
  (exists ext image_bytes image_data,
      known_extension ext /\
      write_fails env (image_path (name step) ext) = false /\
      b64decode (data image_data) = inr image_bytes /\
      GenerateProcessImages.iteration env i step st w =
        (inr (chained_ok st image_data),
         after (written w1 (image_path (name step) ext) image_bytes) [Sleep 3])).
Proof.
  intros w1. rewrite process_iteration_eq. cbn zeta. fold w1.
  destruct (api_result _) as [e|image_data]; [left; eauto|].
  destruct (save_image env (name step) image_data w1) as [[e|path] w2] eqn:Hs.
  - left. exists e. now rewrite (save_image_raises _ _ _ _ _ _ Hs).
  - right. apply save_image_returns in Hs
      as (ext & image_bytes & Hk & _ & Hd & Hw & -> & ->).
    exists ext, image_bytes, image_data. repeat split; assumption.
Qed.

End Turns.

(** ** Whole runs of the batch scripts *)

Section Runs.
Import Py Sys Common Observe Schema Fixtures Probe.






(** A file whose path is not that of an entry is left alone. *)
Lemma images_for_each_frame env specs p :
  (forall spec ext, spec ∈ specs -> known_extension ext ->
                    p <> image_path (name spec) ext) ->
  forall t w, files (GenerateImages.for_each env specs t w).2 !! p = files w !! p.
Proof.
  induction specs as [|img rest IH]; intros Hp t w; [reflexivity|].
  cbn [GenerateImages.for_each]. unfold mbind at 1.
  assert (Hrest : forall spec ext, spec ∈ rest -> known_extension ext ->
                                   p <> image_path (name spec) ext).
  { intros spec ext Hin. apply Hp. now right. }
  destruct (images_turn env img t w)
    as [(e & ->)|(ext & bytes & Hk & _ & ->)]; rewrite (IH Hrest).
  - reflexivity.
  - unfold written. cbn [files after]. apply lookup_insert_ne.
    intros Heq. apply (Hp img ext); [left|exact Hk|now symmetry].
Qed.

Lemma process_for_each_frame env steps p :
  (forall spec ext, spec ∈ steps -> known_extension ext ->
                    p <> image_path (name spec) ext) ->
  forall i st w,
    files (GenerateProcessImages.for_each env i steps st w).2 !! p = files w !! p.
Proof.
  induction steps as [|step rest IH]; intros Hp i st w; [reflexivity|].
  cbn [GenerateProcessImages.for_each]. unfold mbind at 1.
  assert (Hrest : forall spec ext, spec ∈ rest -> known_extension ext ->
                                   p <> image_path (name spec) ext).
  { intros spec ext Hin. apply Hp. now right. }
  destruct (process_turn env i step st w)
    as [(e & ->)|(ext & bytes & image_data & Hk & _ & _ & ->)];
    rewrite (IH Hrest).
  - reflexivity.
  - unfold written. cbn [files after]. apply lookup_insert_ne.
    intros Heq. apply (Hp step ext); [left|exact Hk|now symmetry].
Qed.

End Runs.

(** ** [generate-hero.py]: finding an image, and sending one request *)

Section HeroFound.
Import Py Sys Common Observe Schema Fixtures Probe GenerateHero.

Lemma quiet_ret {A} (a : A) : quiet (ret a).
Proof. intros w. reflexivity. Qed.

Lemma quiet_lift {A} (r : result A) : quiet (lift r).
Proof. intros w. reflexivity. Qed.

Lemma quiet_bind {A B} (m : M A) (k : A -> M B) :
  quiet m -> (forall a, quiet (k a)) -> quiet (mbind m k).
Proof.
  intros Hm Hk w. unfold mbind. specialize (Hm w).
  destruct (m w) as [[e|a] w1]; cbn [snd] in *; [exact Hm|].
  now rewrite (Hk a w1).
Qed.

Lemma quiet_print l : quiet (print l).
Proof.
  intros w. cbn. rewrite requests_app. cbn. apply app_nil_r.
Qed.

Lemma quiet_write_bytes env filename image_bytes :
  quiet (write_bytes env filename image_bytes).
Proof.
  intros w. unfold write_bytes. destruct (write_fails env filename);
    [reflexivity|]. cbn. rewrite requests_app. cbn. apply app_nil_r.
Qed.

Lemma quiet_save_first_part env parts : quiet (save_first_part env parts).
Proof.
  induction parts as [|part rest IH]; [apply quiet_ret|].
  cbn [save_first_part]. apply quiet_bind; [apply quiet_lift|].
  intros [|]; [|exact IH].
  apply quiet_bind; [apply quiet_lift|intros ext].
  apply quiet_bind; [apply quiet_lift|intros image_bytes].
  apply quiet_bind; [apply quiet_write_bytes|intros _].
  apply quiet_bind; [apply quiet_print|intros _]. apply quiet_ret.
Qed.

Lemma quiet_save_first_candidate env candidates :
  quiet (save_first_candidate env candidates).
Proof.
  induction candidates as [|candidate rest IH]; [apply quiet_ret|].
  cbn [save_first_candidate]. apply quiet_bind; [apply quiet_lift|].
  intros parts. apply quiet_bind; [apply quiet_save_first_part|].
  intros [|]; [apply quiet_ret|exact IH].
Qed.




(** [generate_image] of [generate-hero.py] sends one request, whatever
    comes back. *)
Lemma hero_sends_one_request env w :
  requests (trace (generate_image env w).2) =
  requests (trace w) ++ [hero_request env].
Proof.
  unfold generate_image. fold (hero_request env).
  unfold mbind at 1, print at 1, log at 1.
  unfold mbind at 1, urlopen at 1.
  assert (Hw : requests (trace (after (after w
                 [Print (Text "Generating hero background...")])
                 [Urlopen (hero_request env)])) =
               requests (trace w) ++ [hero_request env]).
  { cbn. rewrite !requests_app. cbn. now rewrite app_nil_r. }
  destruct (remote env _ (hero_request env)); try exact Hw.
  rewrite <- Hw.
  apply (quiet_bind _ _ (quiet_lift _)). intros candidates.
  apply quiet_bind; [apply quiet_save_first_candidate|].
  intros [|]; [apply quiet_ret|apply quiet_print].
Qed.

End HeroFound.

(** ** The batch loops on a console and a disk that can refuse *)

Section Hazards.
Import Py Sys Common Observe Schema Fixtures Probe.

(** *** With nothing going wrong, the scripts are those of Part I *)

Lemma calm_save_image env name image_data w :
  Hazard.save_image (Hazard.calm env) name image_data w =
  save_image env name image_data w.
Proof.
  unfold Hazard.save_image, save_image, mbind, lift, Hazard.write_bytes,
    write_bytes, Hazard.print, print, log, Hazard.calm.
  destruct (extension (mimeType image_data)) as [e|ext]; [reflexivity|].
  destruct (b64decode (data image_data)) as [e|image_bytes]; [reflexivity|].
  cbn [Hazard.disk Hazard.console].
  destruct (write_fails env _); reflexivity.
Qed.

Lemma calm_images_iteration env img t w :
  Hazard.Images.iteration env (Hazard.calm env) img t w =
  GenerateImages.iteration env img t w.
Proof.
  unfold Hazard.Images.iteration, GenerateImages.iteration,
    Hazard.Images.attempt, GenerateImages.attempt, try_except, mbind,
    Hazard.print, print, log.
  cbn [Hazard.console Hazard.calm].
  destruct (GenerateImages.generate_image env (prompt img) _)
    as [[e|image_data] w1]; [reflexivity|].
  rewrite calm_save_image.
  destruct (save_image env (name img) image_data w1) as [[e|path] w2];
    reflexivity.
Qed.

Lemma calm_process_iteration env i step st w :
  Hazard.Process.iteration env (Hazard.calm env) i step st w =
  GenerateProcessImages.iteration env i step st w.
Proof.
  unfold Hazard.Process.iteration, GenerateProcessImages.iteration,
    Hazard.Process.attempt, GenerateProcessImages.attempt, try_except, mbind,
    Hazard.print, print, log.
  cbn [Hazard.console Hazard.calm].
  destruct (GenerateProcessImages.generate_image env (prompt step) _ _)
    as [[e|image_data] w1]; [reflexivity|].
  rewrite calm_save_image.
  destruct (save_image env (name step) image_data w1) as [[e|path] w2];
    reflexivity.
Qed.

Lemma calm_images_for_each env specs :
  forall t w,
    Hazard.Images.for_each env (Hazard.calm env) specs t w =
    GenerateImages.for_each env specs t w.
Proof.
  induction specs as [|img rest IH]; intros t w; [reflexivity|].
  cbn [Hazard.Images.for_each GenerateImages.for_each]. unfold mbind.
  rewrite calm_images_iteration.
  destruct (GenerateImages.iteration env img t w) as [[e|t1] w1];
    [reflexivity|apply IH].
Qed.

Lemma calm_process_for_each env steps :
  forall i st w,
    Hazard.Process.for_each env (Hazard.calm env) i steps st w =
    GenerateProcessImages.for_each env i steps st w.
Proof.
  induction steps as [|step rest IH]; intros i st w; [reflexivity|].
  cbn [Hazard.Process.for_each GenerateProcessImages.for_each]. unfold mbind.
  rewrite calm_process_iteration.
  destruct (GenerateProcessImages.iteration env i step st w) as [[e|st1] w1];
    [reflexivity|apply IH].
Qed.

(** The two embeddings of each batch script agree when the console
    takes every line, [images] can be made, and a write is refused only
    where the environment says so. *)
Lemma calm_scripts env specs w :
  Hazard.Images.script_with env (Hazard.calm env) specs w =
    GenerateImages.script_with env specs w /\
  Hazard.Process.script_with env (Hazard.calm env) specs w =
    GenerateProcessImages.script_with env specs w.
Proof.
  split.
  - unfold Hazard.Images.script_with, GenerateImages.script_with.
    destruct (key_missing env); [reflexivity|].
    unfold Hazard.Images.main_with, GenerateImages.main_with,
      Hazard.Images.run_batch, GenerateImages.run_batch, mbind,
      Hazard.mkdir, mkdir, Hazard.print, print, log.
    cbn [Hazard.console Hazard.mkdir_raises Hazard.calm].
    rewrite calm_images_for_each.
    destruct (GenerateImages.for_each env specs _ _) as [[e|t] w1];
      reflexivity.
  - unfold Hazard.Process.script_with, GenerateProcessImages.script_with.
    destruct (key_missing env); [reflexivity|].
    unfold Hazard.Process.main_with, GenerateProcessImages.main_with,
      Hazard.Process.run_batch, GenerateProcessImages.run_batch, mbind,
      Hazard.mkdir, mkdir, Hazard.print, print, log.
    cbn [Hazard.console Hazard.mkdir_raises Hazard.calm].
    rewrite calm_process_for_each.
    destruct (GenerateProcessImages.for_each env 0 specs _ _) as [[e|st] w1];
      reflexivity.
Qed.

(** *** [save_image] *)

(** What [save_image] can do to the world: it sends nothing, touches no
    file but the one it names, and returns only after a completed
    write. *)
Lemma hazard_save_image_effect h name image_data w :
  forall r w',
    Hazard.save_image h name image_data w = (r, w') ->
    requests (trace w') = requests (trace w) /\
    (forall p, p <> image_path name "png" -> p <> image_path name "jpg" ->
               files w' !! p = files w !! p) /\
    (forall path, r = inr path ->
       exists ext image_bytes,
         known_extension ext /\
         b64decode (data image_data) = inr image_bytes /\
         path = image_path name ext /\
         w' = written w path image_bytes).
Proof.
  intros r w'.
  unfold Hazard.save_image, mbind, lift, Hazard.write_bytes, Hazard.print, ret.
  destruct (extension (mimeType image_data)) as [e|ext] eqn:Hext.
  { intros H. injection H as <- <-. repeat split; discriminate. }
  pose proof (extension_known _ _ Hext) as Hk.
  fold (image_path name ext).
  destruct (b64decode (data image_data)) as [e|image_bytes].
  { intros H. injection H as <- <-. repeat split; discriminate. }
  assert (Hne : forall p, p <> image_path name "png" ->
                          p <> image_path name "jpg" ->
                          p <> image_path name ext).
  { intros p H1 H2. now destruct Hk as [-> | ->]. }
  destruct (Hazard.disk h (trace w) _ image_bytes) as [|[n|] e].
  - cbn [trace].
    destruct (Hazard.console h _ (Saved _)) as [e|]; intros H;
      injection H as <- <-.
    + split; [|split; [|discriminate]].
      * cbn. rewrite requests_app. cbn. apply app_nil_r.
      * intros p H1 H2. cbn. rewrite lookup_insert_ne; [reflexivity|].
        intros Heq. now apply (Hne p H1 H2).
    + split; [|split].
      * cbn. rewrite !requests_app. cbn. now rewrite !app_nil_r.
      * intros p H1 H2. cbn. rewrite lookup_insert_ne; [reflexivity|].
        intros Heq. now apply (Hne p H1 H2).
      * intros path H. injection H as <-. exists ext, image_bytes.
        repeat split; [exact Hk|]. unfold written, after. cbn.
        now rewrite <- app_assoc.
  - intros H. injection H as <- <-. split; [reflexivity|].
    split; [|discriminate].
    intros p H1 H2. cbn. rewrite lookup_insert_ne; [reflexivity|].
    intros Heq. now apply (Hne p H1 H2).
  - intros H. injection H as <- <-. repeat split; discriminate.
Qed.

(** *** One turn *)


Lemma hazard_images_iteration_eq env h img t w :
  Hazard.Images.iteration env h img t w =
  match Hazard.console h (trace w) (Generating (name img)) with
  | Some e => (inl e, w)
  | None =>
      let w1 := after w [Print (Generating (name img));
                         Urlopen (images_request env img)] in
      match api_result (remote env (length (requests (trace w)))
                          (images_request env img)) with
      | inl e => Hazard.handler h (counted_failed t) e w1
      | inr image_data =>
          match Hazard.save_image h (name img) image_data w1 with
          | (inl e, w2) => Hazard.handler h (counted_failed t) e w2
          | (inr _, w2) => (inr (counted_ok t), after w2 [Sleep 3])
          end
      end
  end.
Proof.
  unfold Hazard.Images.iteration, Hazard.Images.attempt,
    GenerateImages.generate_image, try_except.
  unfold mbind at 1, Hazard.print at 1.
  destruct (Hazard.console h (trace w) (Generating (name img))) as [e|];
    [reflexivity|].
  unfold mbind at 1. rewrite call_api_eq. fold (images_request env img).
  rewrite after_after. cbn [trace after].
  rewrite requests_app. cbn [requests]. rewrite app_nil_r. cbn [app].
  destruct (api_result _) as [e|image_data]; [reflexivity|].
  unfold mbind at 1.
  destruct (Hazard.save_image h (name img) image_data _) as [[e|path] w2];
    reflexivity.
Qed.

Lemma hazard_process_iteration_eq env h i step st w :
  Hazard.Process.iteration env h i step st w =
  match Hazard.console h (trace w) (GeneratingStep (name step) (i + 1)) with
  | Some e => (inl e, w)
  | None =>
      let req := process_request env step
                   (GenerateProcessImages.previous_image st) in
      let w1 := after w [Print (GeneratingStep (name step) (i + 1));
                         Urlopen req] in
      match api_result (remote env (length (requests (trace w))) req) with
      | inl e => Hazard.handler h (chained_failed st) e w1
      | inr image_data =>
          match Hazard.save_image h (name step) image_data w1 with
          | (inl e, w2) => Hazard.handler h (chained_failed st) e w2
          | (inr _, w2) => (inr (chained_ok st image_data), after w2 [Sleep 3])
          end
      end
  end.
Proof.
  unfold Hazard.Process.iteration, Hazard.Process.attempt,
    GenerateProcessImages.generate_image, try_except.
  unfold mbind at 1, Hazard.print at 1.
  destruct (Hazard.console h (trace w) (GeneratingStep (name step) (i + 1)))
    as [e|]; [reflexivity|].
  unfold mbind at 1. rewrite call_api_eq.
  fold (process_request env step (GenerateProcessImages.previous_image st)).
  rewrite after_after. cbn [trace after].
  rewrite requests_app. cbn [requests]. rewrite app_nil_r. cbn [app].
  destruct (api_result _) as [e|image_data]; [reflexivity|].
  unfold mbind at 1.
  destruct (Hazard.save_image h (name step) image_data _) as [[e|path] w2];
    reflexivity.
Qed.



(** On a console that takes every line, a turn returns. *)
Lemma hazard_handler_accepting {S} h (s : S) e w :
  (forall tr l, Hazard.console h tr l = None) ->
  Hazard.handler h s e w = (inr s, after w [Print (Failed e)]).
Proof.
  intros Hc. unfold Hazard.handler, mbind, Hazard.print, ret.
  now rewrite Hc.
Qed.

Lemma hazard_images_turn_accepting env h img t w :
  (forall tr l, Hazard.console h tr l = None) ->
  exists t' w',
    Hazard.Images.iteration env h img t w = (inr t', w') /\
    successful t' + failed t' = S (successful t + failed t).
Proof.
  intros Hc. rewrite hazard_images_iteration_eq, Hc. cbn zeta.
  destruct (api_result _) as [e|image_data].
  - rewrite (hazard_handler_accepting _ _ _ _ Hc). eexists _, _.
    split; [reflexivity|]. cbn. lia.
  - destruct (Hazard.save_image h (name img) image_data _) as [[e|path] w2].
    + rewrite (hazard_handler_accepting _ _ _ _ Hc). eexists _, _.
      split; [reflexivity|]. cbn. lia.
    + eexists _, _. split; [reflexivity|]. cbn. lia.
Qed.

Lemma hazard_process_turn_accepting env h i step st w :
  (forall tr l, Hazard.console h tr l = None) ->
  exists st' w',
    Hazard.Process.iteration env h i step st w = (inr st', w') /\
    successful (GenerateProcessImages.counts st')
      + failed (GenerateProcessImages.counts st')
    = S (successful (GenerateProcessImages.counts st)
         + failed (GenerateProcessImages.counts st)).
Proof.
  intros Hc. rewrite hazard_process_iteration_eq, Hc. cbn zeta.
  destruct (api_result _) as [e|image_data].
  - rewrite (hazard_handler_accepting _ _ _ _ Hc). eexists _, _.
    split; [reflexivity|]. cbn. lia.
  - destruct (Hazard.save_image h (name step) image_data _) as [[e|path] w2].
    + rewrite (hazard_handler_accepting _ _ _ _ Hc). eexists _, _.
      split; [reflexivity|]. cbn. lia.
    + eexists _, _. split; [reflexivity|]. cbn. lia.
Qed.

Lemma hazard_images_for_each_accepting env h specs :
  (forall tr l, Hazard.console h tr l = None) ->
  forall t w, exists t' w',
    Hazard.Images.for_each env h specs t w = (inr t', w') /\
    successful t' + failed t' = successful t + failed t + length specs.
Proof.
  intros Hc. induction specs as [|img rest IH]; intros t w.
  - exists t, w. cbn. split; [reflexivity|lia].
  - destruct (hazard_images_turn_accepting env h img t w Hc)
      as (t1 & w1 & E1 & S1).
    destruct (IH t1 w1) as (t2 & w2 & E2 & S2).
    exists t2, w2. cbn [Hazard.Images.for_each]. unfold mbind at 1.
    rewrite E1. split; [exact E2|cbn [length]; lia].
Qed.

Lemma hazard_process_for_each_accepting env h steps :
  (forall tr l, Hazard.console h tr l = None) ->
  forall i st w, exists st' w',
    Hazard.Process.for_each env h i steps st w = (inr st', w') /\
    successful (GenerateProcessImages.counts st')
      + failed (GenerateProcessImages.counts st')
    = successful (GenerateProcessImages.counts st)
      + failed (GenerateProcessImages.counts st) + length steps.
Proof.
  intros Hc. induction steps as [|step rest IH]; intros i st w.
  - exists st, w. cbn. split; [reflexivity|lia].
  - destruct (hazard_process_turn_accepting env h i step st w Hc)
      as (st1 & w1 & E1 & S1).
    destruct (IH (S i) st1 w1) as (st2 & w2 & E2 & S2).
    exists st2, w2. cbn [Hazard.Process.for_each]. unfold mbind at 1.
    rewrite E1. split; [exact E2|cbn [length]; lia].
Qed.

End Hazards.

(** ** A failure that cannot be printed *)

Section Console.
Import Py Sys Common Observe Schema Fixtures Probe.

(** C2 asks that no failure of a single call leaves the loop.  Here the
    console covers ASCII only, and the service refuses the first request
    with a message that has an accented letter.  [generate_image] raises,
    the [except] clause is entered, and its [print] of the message raises
    in turn, before the counter and outside any [try]: in both scripts
    the exception leaves the loop after one request, no later entry is
    attempted, no file is written, and the process ends with status 1
    without a summary. *)
Theorem C2_unprintable_failure_stops_the_batch :
  (Hazard.Images.run_batch Hazard.env_accent Hazard.ascii_only_console
     GenerateImages.image_prompts empty_world).1 = inl ValueError /\
  length (requests (trace
    (Hazard.Images.script Hazard.env_accent Hazard.ascii_only_console
       empty_world).2)) = 1 /\
  writes (trace
    (Hazard.Images.script Hazard.env_accent Hazard.ascii_only_console
       empty_world).2) = [] /\
  (Hazard.Images.script Hazard.env_accent Hazard.ascii_only_console
     empty_world).1 = 1%Z /\
  (Hazard.Process.run_batch Hazard.env_accent Hazard.ascii_only_console
     GenerateProcessImages.process_steps empty_world).1 = inl ValueError /\
  length (requests (trace
    (Hazard.Process.script Hazard.env_accent Hazard.ascii_only_console
       empty_world).2)) = 1 /\
  (Hazard.Process.script Hazard.env_accent Hazard.ascii_only_console
     empty_world).1 = 1%Z.
Proof. repeat split; vm_compute; reflexivity. Qed.

(** The same service on a console that takes every line: the failure is
    printed and counted, and the nine other entries are saved. *)
Example printable_failure_is_counted :
  (Hazard.Images.run_batch Hazard.env_accent (Hazard.calm Hazard.env_accent)
     GenerateImages.image_prompts empty_world).1 =
    inr {| successful := 9; failed := 1 |}.
Proof. vm_compute. reflexivity. Qed.

End Console.

(** ** Further properties of the scripts *)

Section More.
Import Py Sys Common Observe Schema Fixtures Probe.

(** X1.  In both batch scripts [generate_image] turns an HTTP error
    status into an [Exception] whose message is [HTTP], the status code in
    decimal, a colon and the decoded error body; one request was sent. *)
Theorem X1_http_error_is_reported env prompt previous w code error_body :
  (forall req,
      remote env (length (requests (trace w))) req =
        Refused code (Some error_body)) ->
  let message :=
    JStr ("HTTP " +:+ str_of_int code +:+ ": " +:+ error_body) in
  GenerateImages.generate_image env prompt w =
    (inl (Exception message),
     after w [Urlopen (build_request env [JObj [("text", JStr prompt)]] 60)]) /\
  GenerateProcessImages.generate_image env prompt previous w =
    (inl (Exception message),
     after w [Urlopen (build_request env
                         (GenerateProcessImages.build_parts prompt previous) 90)]).
Proof.
  intros Hremote message.
  unfold GenerateImages.generate_image, GenerateProcessImages.generate_image.
  rewrite !call_api_eq, !Hremote. split; reflexivity.
Qed.

Lemma X1_http_error_witness :
  (GenerateImages.generate_image env_first_refused "a prompt" empty_world).1 =
    inl (Exception (JStr "HTTP 429: rate limited")) /\
  (GenerateProcessImages.generate_image env_first_refused "a prompt"
     (Some png_image) empty_world).1 =
    inl (Exception (JStr "HTTP 429: rate limited")).
Proof.
  pose proof (X1_http_error_is_reported env_first_refused "a prompt"
                (Some png_image) empty_world 429 "rate limited"
                (fun _ => eq_refl)) as [H1 H2].
  rewrite H1, H2. split; reflexivity.
Defined.

(** X2.  When the service cannot be reached, the [URLError] leaves
    [generate_image] as it is, and the turn of either loop prints it,
    counts one failure, writes nothing and does not sleep; the chained
    loop also drops its context. *)
Theorem X2_unreachable_service_fails_the_turn env img t i st w reason :
  (forall req,
      remote env (length (requests (trace w))) req = Unreachable reason) ->
  GenerateImages.iteration env img t w =
    (inr (counted_failed t),
     after w [Print (Generating (name img));
              Urlopen (images_request env img);
              Print (Failed (URLError reason))]) /\
  GenerateProcessImages.iteration env i img st w =
    (inr (chained_failed st),
     after w [Print (GeneratingStep (name img) (i + 1));
              Urlopen (process_request env img
                         (GenerateProcessImages.previous_image st));
              Print (Failed (URLError reason))]).
Proof.
  intros Hremote.
  rewrite images_iteration_eq, process_iteration_eq. cbn zeta.
  rewrite !Hremote. cbn [api_result]. now rewrite !after_after.
Qed.

Lemma X2_unreachable_witness :
  GenerateProcessImages.iteration env_down 0
    {| name := "one"; prompt := "first" |}
    {| GenerateProcessImages.counts := {| successful := 2; failed := 0 |};
       GenerateProcessImages.previous_image := Some png_image |}
    empty_world =
  (inr {| GenerateProcessImages.counts := {| successful := 2; failed := 1 |};
          GenerateProcessImages.previous_image := None |},
   after empty_world
     [Print (GeneratingStep "one" 1);
      Urlopen (process_request env_down {| name := "one"; prompt := "first" |}
                 (Some png_image));
      Print (Failed (URLError "timed out"))]).
Proof.
  exact (proj2 (X2_unreachable_service_fails_the_turn env_down
                  {| name := "one"; prompt := "first" |}
                  {| successful := 0; failed := 0 |} 0
                  {| GenerateProcessImages.counts :=
                       {| successful := 2; failed := 0 |};
                     GenerateProcessImages.previous_image := Some png_image |}
                  empty_world "timed out" (fun _ => eq_refl))).
Defined.

(** X3.  The guard of the batch scripts is [not API_KEY]: a variable set
    to the empty string stops them like an unset one, with status 1 and
    nothing but the diagnostic printed. *)
Theorem X3_empty_key_stops_at_once env specs w :
  GEMINI_API_KEY env = Some "" ->
  GenerateImages.script_with env specs w =
    (1%Z,
     after w
       [Print (Text "Error: GEMINI_API_KEY environment variable not set");
        Print (Text "Get your API key from: https://aistudio.google.com/apikey");
        Print (Text ("Then run: export GEMINI_API_KEY=" +:+ dquote
                     +:+ "your-key-here" +:+ dquote))]) /\
  GenerateProcessImages.script_with env specs w =
    (1%Z,
     after w
       [Print (Text "Error: GEMINI_API_KEY environment variable not set")]).
Proof.
  intros Hkey.
  unfold GenerateImages.script_with, GenerateProcessImages.script_with,
    key_missing.
  rewrite Hkey. cbn [String.eqb]. split; [|reflexivity].
  unfold mbind, print, log. cbn [snd]. now rewrite !after_after.
Qed.

Lemma X3_empty_key_witness :
  (GenerateImages.script env_empty_key empty_world).1 = 1%Z /\
  (GenerateProcessImages.script env_empty_key empty_world).1 = 1%Z /\
  requests (trace (GenerateImages.script env_empty_key empty_world).2) = [].
Proof.
  pose proof (X3_empty_key_stops_at_once env_empty_key
                GenerateImages.image_prompts empty_world eq_refl) as [H1 _].
  pose proof (X3_empty_key_stops_at_once env_empty_key
                GenerateProcessImages.process_steps empty_world eq_refl)
    as [_ H2].
  unfold GenerateImages.script, GenerateProcessImages.script.
  rewrite H1, H2. repeat split.
Defined.

(** X4.  With the key set, when [images] can be made and the console
    takes every line, either batch script ends with status 0 whatever the
    service and the disk do; its last lines are the summary, whose two
    numbers add up to the number of entries. *)
Theorem X4_exit_status_ignores_failures env h specs w :
  key_missing env = false ->
  Hazard.mkdir_raises h = None ->
  (forall tr l, Hazard.console h tr l = None) ->
  (exists t wb,
      Hazard.Images.script_with env h specs w =
        (0%Z,
         after wb [Print (Text (nl +:+ "Image generation complete!"));
                   Print (Successful (successful t));
                   Print (FailedCount (failed t));
                   Print (SavedTo images_dir)]) /\
      successful t + failed t = length specs) /\
  (exists t wb,
      Hazard.Process.script_with env h specs w =
        (0%Z,
         after wb [Print (Text (nl +:+ "Generation complete!"));
                   Print (Successful (successful t));
                   Print (FailedCount (failed t))]) /\
      successful t + failed t = length specs).
Proof.
  intros Hkey Hdir Hc. split.
  - unfold Hazard.Images.script_with, Hazard.Images.main_with,
      Hazard.Images.run_batch. rewrite Hkey.
    unfold mbind at 1, Hazard.mkdir at 1. rewrite Hdir.
    unfold mbind at 1, Hazard.print at 1. rewrite Hc.
    unfold mbind at 1, Hazard.print at 1. rewrite Hc.
    unfold mbind at 1.
    destruct (hazard_images_for_each_accepting env h specs Hc
                {| successful := 0; failed := 0 |}
                (after (after (after w [Mkdir images_dir])
                   [Print (Text ("Starting IWT image generation..." +:+ nl))])
                   [Print (GeneratingCount (length specs))]))
      as (t & wb & E & S).
    rewrite E. exists t, wb. split; [|exact S].
    unfold mbind, Hazard.print. rewrite !Hc. now rewrite !after_after.
  - unfold Hazard.Process.script_with, Hazard.Process.main_with,
      Hazard.Process.run_batch. rewrite Hkey.
    unfold mbind at 1, Hazard.mkdir at 1. rewrite Hdir.
    unfold mbind at 1, Hazard.print at 1. rewrite Hc.
    unfold mbind at 1, Hazard.print at 1. rewrite Hc.
    unfold mbind at 1.
    destruct (hazard_process_for_each_accepting env h specs Hc 0
                GenerateProcessImages.initial
                (after (after (after w [Mkdir images_dir])
                   [Print (Text ("Generating process step images for science section flipbook..." +:+ nl))])
                   [Print (Text ("Each image will be fed into the next for visual continuity." +:+ nl))]))
      as (st & wb & E & S).
    rewrite E. exists (GenerateProcessImages.counts st), wb. split; [|exact S].
    unfold mbind, Hazard.print. rewrite !Hc. now rewrite !after_after.
Qed.

Lemma X4_exit_status_witness :
  (Hazard.Images.script env_down Hazard.disk_full empty_world).1 = 0%Z /\
  (Hazard.Process.script Hazard.env_accent Hazard.disk_full empty_world).1
    = 0%Z.
Proof.
  destruct (X4_exit_status_ignores_failures env_down Hazard.disk_full
              GenerateImages.image_prompts empty_world eq_refl eq_refl
              (fun _ _ => eq_refl))
    as [(t & wb & E & _) _].
  destruct (X4_exit_status_ignores_failures Hazard.env_accent Hazard.disk_full
              GenerateProcessImages.process_steps empty_world eq_refl eq_refl
              (fun _ _ => eq_refl))
    as [_ (t' & wb' & E' & _)].
  unfold Hazard.Images.script, Hazard.Process.script.
  rewrite E, E'. split; reflexivity.
Defined.


(** X6.  The first request of the chained loop carries the prompt of the
    first step alone: the loop starts without a context. *)
Theorem X6_first_step_has_no_context env step rest w :
  exists st w',
    GenerateProcessImages.run_batch env (step :: rest) w = (inr st, w') /\
    requests (trace w') !! length (requests (trace w)) =
      Some (build_request env [JObj [("text", JStr (prompt step))]] 90).
Proof.
  destruct (process_for_each_total env (step :: rest) 0
              GenerateProcessImages.initial w)
    as (st & w' & reqs & E & _ & R & L & H).
  exists st, w'. split; [exact E|].
  rewrite R, lookup_app_r by lia. rewrite Nat.sub_diag.
  destruct reqs as [|r reqs]; [discriminate L|].
  cbn in H. injection H as ->. reflexivity.
Qed.

(** X7.  A batch run touches no file but those of its entries: a path
    that is neither [images/<name>.png] nor [images/<name>.jpg] for an
    entry of the list holds after the run what it held before. *)
Theorem X7_other_files_are_left_alone env specs w p :
  (forall spec, spec ∈ specs ->
                p <> image_path (name spec) "png" /\
                p <> image_path (name spec) "jpg") ->
  files (GenerateImages.run_batch env specs w).2 !! p = files w !! p /\
  files (GenerateProcessImages.run_batch env specs w).2 !! p = files w !! p.
Proof.
  intros Hp.
  assert (Hp' : forall spec ext, spec ∈ specs -> known_extension ext ->
                                 p <> image_path (name spec) ext).
  { intros spec ext Hin [-> | ->]; now apply Hp. }
  split.
  - now apply images_for_each_frame.
  - now apply process_for_each_frame.
Qed.

Lemma X7_other_files_witness :
  files (GenerateImages.run_batch env_ok three_specs used_world).2
    !! "notes.txt" = Some world_bytes /\
  files (GenerateImages.run_batch env_ok three_specs used_world).2
    !! "images/one.png" = Some hello.
Proof.
  split; [|vm_compute; reflexivity].
  assert (H : forall spec, spec ∈ three_specs ->
                "notes.txt" <> image_path (name spec) "png" /\
                "notes.txt" <> image_path (name spec) "jpg").
  { intros spec Hin. unfold three_specs in Hin.
    repeat (apply elem_of_cons in Hin as [->|Hin]; [split; discriminate|]).
    apply elem_of_nil in Hin. destruct Hin. }
  rewrite (proj1 (X7_other_files_are_left_alone env_ok three_specs used_world
                    "notes.txt" H)).
  reflexivity.
Defined.


(** X9.  A turn of the chained loop touches no file but the one of its
    step, and ends in one of three ways: it hands on as context an image
    whose decoded data is the one file it wrote; or it counts a failure
    and hands on nothing; or the console refuses a line and the exception
    leaves the loop. *)
Theorem X9_chained_turn_saves_or_resets env h i step st w :
  exists r w',
    Hazard.Process.iteration env h i step st w = (r, w') /\
    (forall p,
        p <> image_path (name step) "png" ->
        p <> image_path (name step) "jpg" ->
        files w' !! p = files w !! p) /\
    match r with
    | inr st' =>
        (exists image_data f,
            st' = chained_ok st image_data /\
            b64decode (data image_data) = inr f.2 /\
            saved_for step f /\
            writes (trace w') = writes (trace w) ++ [f] /\
            files w' = store (files w) f) \/
        st' = chained_failed st
    | inl e =>
        exists tr l, Hazard.console h tr l = Some e
    end.
Proof.
  rewrite hazard_process_iteration_eq.
  destruct (Hazard.console h (trace w) (GeneratingStep (name step) (i + 1)))
    as [e|] eqn:Hfirst.
  { eexists _, _. split; [reflexivity|]. split; [reflexivity|]. eauto. }
  cbn zeta. set (w1 := after w _).
  assert (Hw1 : files w1 = files w) by reflexivity.
  assert (Ww1 : writes (trace w1) = writes (trace w)).
  { unfold w1. cbn [trace after]. rewrite writes_app. cbn. apply app_nil_r. }
  clearbody w1.
  assert (Hhandler : forall e w2,
             (forall p, p <> image_path (name step) "png" ->
                        p <> image_path (name step) "jpg" ->
                        files w2 !! p = files w !! p) ->
             exists r w',
               Hazard.handler h (chained_failed st) e w2 = (r, w') /\
               (forall p, p <> image_path (name step) "png" ->
                          p <> image_path (name step) "jpg" ->
                          files w' !! p = files w !! p) /\
               match r with
               | inr st' =>
                   (exists image_data f,
                       st' = chained_ok st image_data /\
                       b64decode (data image_data) = inr f.2 /\
                       saved_for step f /\
                       writes (trace w') = writes (trace w) ++ [f] /\
                       files w' = store (files w) f) \/
                   st' = chained_failed st
               | inl e' => exists tr l, Hazard.console h tr l = Some e'
               end).
  { intros e w2 Hframe.
    unfold Hazard.handler, mbind, Hazard.print, ret.
    destruct (Hazard.console h (trace w2) (Failed e)) as [e'|] eqn:Hc;
      eexists _, _; (split; [reflexivity|]); (split; [exact Hframe|]).
    - eauto.
    - now right. }
  destruct (api_result _) as [e|image_data].
  - apply Hhandler. intros p _ _. now rewrite Hw1.
  - destruct (Hazard.save_image h (name step) image_data w1) as [[e|path] w2]
      eqn:Hs; apply hazard_save_image_effect in Hs as (_ & Hframe & Hret).
    + apply Hhandler. intros p H1 H2. now rewrite (Hframe p H1 H2), Hw1.
    + destruct (Hret path eq_refl) as (ext & bytes & Hk & Hd & -> & ->).
      eexists _, _. split; [reflexivity|]. split.
      * intros p H1 H2. cbn [files after]. now rewrite (Hframe p H1 H2), Hw1.
      * left. exists image_data, (image_path (name step) ext, bytes).
        split; [reflexivity|]. split; [exact Hd|]. split.
        { unfold saved_for. cbn [fst].
          destruct Hk as [-> | ->]; [left|right]; reflexivity. }
        split.
        { unfold written. cbn [trace after]. rewrite !writes_app, Ww1. cbn.
          now rewrite !app_nil_r. }
        { unfold written, store. cbn [files after fst snd]. now rewrite Hw1. }
Qed.

Lemma X9_chained_turn_witness :
  exists w',
    Hazard.Process.iteration env_ok Hazard.disk_full 0
      {| name := "one"; prompt := "first" |}
      GenerateProcessImages.initial used_world =
      (inr (chained_failed GenerateProcessImages.initial), w') /\
    files w' !! "notes.txt" = Some world_bytes /\
    files w' !! "images/one.png" = Some [x68; x65].
Proof.
  destruct (X9_chained_turn_saves_or_resets env_ok Hazard.disk_full 0
              {| name := "one"; prompt := "first" |}
              GenerateProcessImages.initial used_world)
    as (r & w' & E & Hframe & _).
  exists w'. assert (E' := E). vm_compute in E'. injection E' as <- Hw.
  split; [exact E|]. split.
  - rewrite Hframe; [reflexivity|discriminate|discriminate].
  - rewrite <- Hw. vm_compute. reflexivity.
Defined.

(** X10.  An image that was generated but whose [save_image] raised is
    lost to the chain: once the failure is printed, the turn has counted
    a failure and the next step gets no context.  The failed save may
    have emptied or cut short the file of the step; it has touched no
    other file. *)
Theorem X10_unsaved_image_is_not_handed_on env h i step st w image_data w1 e w2 :
  Hazard.console h (trace w) (GeneratingStep (name step) (i + 1)) = None ->
  GenerateProcessImages.generate_image env (prompt step)
    (GenerateProcessImages.previous_image st)
    (after w [Print (GeneratingStep (name step) (i + 1))])
    = (inr image_data, w1) ->
  Hazard.save_image h (name step) image_data w1 = (inl e, w2) ->
  Hazard.console h (trace w2) (Failed e) = None ->
  Hazard.Process.iteration env h i step st w =
    (inr (chained_failed st), after w2 [Print (Failed e)]) /\
  (forall p,
      p <> image_path (name step) "png" ->
      p <> image_path (name step) "jpg" ->
      files w2 !! p = files w !! p).
Proof.
  intros Hfirst Hgen Hsave Hlast. split.
  - unfold Hazard.Process.iteration, Hazard.Process.attempt, try_except.
    unfold mbind at 1, Hazard.print at 1. rewrite Hfirst.
    unfold mbind at 1. rewrite Hgen.
    unfold mbind at 1. rewrite Hsave.
    unfold mbind, Hazard.print. now rewrite Hlast.
  - apply hazard_save_image_effect in Hsave as (_ & Hframe & _).
    intros p H1 H2. rewrite (Hframe p H1 H2).
    unfold GenerateProcessImages.generate_image in Hgen.
    rewrite call_api_eq in Hgen. injection Hgen as _ <-. reflexivity.
Qed.

Lemma X10_unsaved_image_witness :
  (Hazard.Process.iteration env_ok Hazard.disk_full 0
     {| name := "one"; prompt := "first" |}
     GenerateProcessImages.initial used_world).1 =
    inr (chained_failed GenerateProcessImages.initial) /\
  requests (trace (Hazard.Process.run_batch env_ok Hazard.disk_full three_specs
                     empty_world).2) =
    map (fun step => process_request env_ok step None) three_specs.
Proof.
  split; [|vm_compute; reflexivity].
  rewrite (proj1 (X10_unsaved_image_is_not_handed_on env_ok Hazard.disk_full 0
                    {| name := "one"; prompt := "first" |}
                    GenerateProcessImages.initial used_world png_image
                    _ (OSError "images/one.png") _
                    eq_refl eq_refl eq_refl eq_refl)).
  reflexivity.
Defined.



(** [generate-hero.py] has no error check either: from an answer that
    reports an error and carries an image, it saves the image. *)
Example hero_ignores_error_key :
  (GenerateHero.script env_error_answer empty_world).1 = 0%Z /\
  writes (trace (GenerateHero.script env_error_answer empty_world).2) =
    [("images/hero-bg.png", hello)].
Proof. split; vm_compute; reflexivity. Qed.

(** X12.  [generate-hero.py] has no [try]: when its request is not
    answered with a parsed body (an HTTP error status, no answer, a body
    that is not JSON), the exception ends the script with status 1 and no
    file is written. *)
Theorem X12_hero_stops_on_failed_request env w :
  (forall result,
      remote env (length (requests (trace w))) (hero_request env)
        <> Responded result) ->
  GenerateHero.script env w =
    (1%Z,
     after w [Mkdir images_dir;
              Print (Text "Generating hero background...");
              Urlopen (hero_request env)]).
Proof.
  intros Hremote.
  unfold GenerateHero.script, GenerateHero.generate_image.
  fold (hero_request env).
  unfold mbind at 1, mkdir at 1, log at 1.
  unfold mbind at 1, print at 1, log at 1. rewrite after_after.
  unfold mbind at 1, urlopen at 1. cbn [trace after].
  rewrite requests_app. cbn [requests app]. rewrite app_nil_r.
  destruct (remote env _ (hero_request env)) as [result| | |];
    [now destruct (Hremote result)| | |]; now rewrite after_after.
Qed.

Lemma X12_hero_stops_witness :
  GenerateHero.script env_down empty_world =
    (1%Z,
     after empty_world
       [Mkdir images_dir;
        Print (Text "Generating hero background...");
        Urlopen (hero_request env_down)]).
Proof.
  apply (X12_hero_stops_on_failed_request env_down empty_world).
  intros result. discriminate.
Defined.

(** X13.  [generate-hero.py] does not look at the key before it uses it:
    with the variable unset it still sends its one request, to a URL
    whose key is the text [None]. *)
Theorem X13_hero_sends_request_without_key env w :
  GEMINI_API_KEY env = None ->
  requests (trace (GenerateHero.script env w).2) =
    requests (trace w) ++ [hero_request env] /\
  url (hero_request env) =
    "https://generativelanguage.googleapis.com/v1beta/models/gemini-2.0-flash-exp:generateContent?key=None".
Proof.
  intros Hkey. split.
  - unfold GenerateHero.script, mbind at 1, mkdir at 1, log at 1.
    pose proof (hero_sends_one_request env (after w [Mkdir images_dir])) as H.
    destruct (GenerateHero.generate_image env _) as [[e|u] w'];
      cbn [snd] in *; rewrite H; cbn; rewrite requests_app; cbn;
      now rewrite app_nil_r.
  - unfold hero_request, build_request, api_url. cbn [url]. now rewrite Hkey.
Qed.

Lemma X13_hero_without_key_witness :
  requests (trace (GenerateHero.script env_no_key empty_world).2) =
    [hero_request env_no_key] /\
  url (hero_request env_no_key) =
    "https://generativelanguage.googleapis.com/v1beta/models/gemini-2.0-flash-exp:generateContent?key=None".
Proof.
  exact (X13_hero_sends_request_without_key env_no_key empty_world eq_refl).
Defined.

(** X14.  The extension is [png] exactly when the three characters [png]
    occur somewhere in the mime type, in lower case, and [jpg] for every
    other string; so [image/PNG] is saved as a [.jpg] file. *)
Theorem X14_extension_is_a_substring_test mime :
  (extension (JStr mime) = inr "png" <->
   exists before rest, mime = before +:+ "png" +:+ rest) /\
  (extension (JStr mime) = inr "jpg" <->
   ~ exists before rest, mime = before +:+ "png" +:+ rest) /\
  extension (JStr "image/PNG") = inr "jpg".
Proof.
  unfold extension. cbn [contains Py.bind].
  pose proof (str_contains_spec "png" mime) as Hspec.
  destruct (str_contains "png" mime).
  - split; [|split; [|reflexivity]].
    + split; [intros _; now apply Hspec|reflexivity].
    + split; [discriminate|]. intros Hno. destruct Hno. now apply Hspec.
  - split; [|split; [|reflexivity]].
    + split; [discriminate|]. intros H. apply Hspec in H. discriminate.
    + split; [|reflexivity]. intros _ H. apply Hspec in H. discriminate.
Qed.

(** X15.  The context of a chained request is the image as it was
    received: run on the parts of the request, the scanning loop of
    [generate_image] finds that image, mime type and data unchanged, and
    finds none in a request built without context. *)
Theorem X15_context_is_sent_unchanged prompt img :
  scan_parts (GenerateProcessImages.build_parts prompt (Some img)) =
    inr (Some img) /\
  scan_parts (GenerateProcessImages.build_parts prompt None) = inr None.
Proof. destruct img as [m d]. split; reflexivity. Qed.

(** X17.  With the key set, when [images] cannot be made (it is a
    regular file, say), either batch script ends with status 1 at once:
    nothing is printed, no request is sent, no file is written. *)
Theorem X17_blocked_directory_stops_the_script env h specs w e :
  key_missing env = false ->
  Hazard.mkdir_raises h = Some e ->
  Hazard.Images.script_with env h specs w = (1%Z, w) /\
  Hazard.Process.script_with env h specs w = (1%Z, w).
Proof.
  intros Hkey Hdir.
  unfold Hazard.Images.script_with, Hazard.Process.script_with.
  rewrite Hkey. unfold mbind, Hazard.mkdir. rewrite Hdir. split; reflexivity.
Qed.

Lemma X17_blocked_directory_witness :
  Hazard.Images.script env_ok Hazard.images_is_a_file empty_world =
    (1%Z, empty_world) /\
  Hazard.Process.script env_ok Hazard.images_is_a_file empty_world =
    (1%Z, empty_world).
Proof.
  split.
  - apply (X17_blocked_directory_stops_the_script env_ok
             Hazard.images_is_a_file GenerateImages.image_prompts empty_world
             (OSError images_dir) eq_refl eq_refl).
  - apply (X17_blocked_directory_stops_the_script env_ok
             Hazard.images_is_a_file GenerateProcessImages.process_steps
             empty_world (OSError images_dir) eq_refl eq_refl).
Defined.

End More.
